(** * An MCP tool server: dispatcher, calculator, weather and file tools

    A shallow embedding of the TypeScript server (index.ts and the three
    tool classes under tools/) together with the properties its
    specification states about it.

    Conventions of the embedding.
    - A JavaScript number is an IEEE 754 binary64 value: Rocq's primitive
      [float].
    - A JavaScript string is a [string]; a character is one code unit
      below 256.  Strings with a code unit from 256 on (a surrogate
      included) are outside the embedding.
    - The untyped argument object of a request is a finite map from
      property names to JavaScript values (scalars; a nested plain object
      is one opaque value; an array is outside the embedding); a request
      without arguments carries [None].
    - [throw] / [try ... catch] is the error monad [Result]; an [async]
      function that awaits file I/O is a function of the file tree that
      returns the new file tree next to its result.
    - [JSON.stringify] of a tool's output is not modelled: a response
      carries the structured output itself. *)

From Stdlib Require Import Floats.
From stdpp Require Import base strings pretty gmap list.

Local Open Scope string_scope.

(** ** JavaScript values *)

Module Js.

Inductive JsVal :=
| JUndefined
| JNull
| JBool (b : bool)
| JNum (x : float)
| JStr (s : string)
| JObject. (* a nested plain object; its contents never matter here *)

(** The argument object. *)
Abbreviation Args := (gmap string JsVal).

(** [o.k]: a property that is not there reads as [undefined]. *)
Definition prop (o : Args) (k : string) : JsVal := default JUndefined (o !! k).

(** ToBoolean. *)
Definition truthy (v : JsVal) : bool :=
  match v with
  | JUndefined | JNull => false
  | JBool b => b
  | JNum x => negb (PrimFloat.eqb x 0 || PrimFloat.is_nan x)
  | JStr s => negb (String.eqb s "")
  | JObject => true
  end.

Definition typeof (v : JsVal) : string :=
  match v with
  | JUndefined => "undefined"
  | JNull | JObject => "object"
  | JBool _ => "boolean"
  | JNum _ => "number"
  | JStr _ => "string"
  end.

Definition is_number (v : JsVal) : bool := String.eqb (typeof v) "number".
Definition is_string (v : JsVal) : bool := String.eqb (typeof v) "string".
Definition is_undefined (v : JsVal) : bool :=
  match v with JUndefined => true | _ => false end.

(** The global [isNaN], on an argument already known to be a number. *)
Definition isNaN (v : JsVal) : bool :=
  match v with JNum x => PrimFloat.is_nan x | _ => false end.

(** [v === s] for a string literal [s]. *)
Definition strict_eq_str (v : JsVal) (s : string) : bool :=
  match v with JStr t => String.eqb t s | _ => false end.

(** [v === x] for a number literal [x] (IEEE equality: 0 === -0). *)
Definition strict_eq_num (v : JsVal) (x : float) : bool :=
  match v with JNum y => PrimFloat.eqb y x | _ => false end.

(** [v < x] for a number [v] and a number literal [x]. *)
Definition lt_num (v : JsVal) (x : float) : bool :=
  match v with JNum y => PrimFloat.ltb y x | _ => false end.

(** [l.includes(v)] for an array [l] of string literals. *)
Definition includes (l : list string) (v : JsVal) : bool :=
  existsb (strict_eq_str v) l.

(** [l.join(sep)]. *)
Definition join (sep : string) (l : list string) : string := String.concat sep l.

(** The number held by a value that validation has shown to be a number. *)
Definition num_of (v : JsVal) : float :=
  match v with JNum x => x | _ => PrimFloat.nan end.

(** The string held by a value that validation has shown to be a string. *)
Definition str_of (v : JsVal) : string :=
  match v with JStr s => s | _ => "" end.

(** The double quote, for messages that contain one. *)
Definition dq : string := String (Ascii.ascii_of_nat 34) "".

(** White space as [String.prototype.trim] sees it, among code units < 256. *)
Definition is_space (c : Ascii.ascii) : bool :=
  let n := Ascii.nat_of_ascii c in
  (Nat.leb 9 n && Nat.leb n 13) || Nat.eqb n 32 || Nat.eqb n 160.

Fixpoint trim_start (s : string) : string :=
  match s with
  | String c s' => if is_space c then trim_start s' else s
  | EmptyString => EmptyString
  end.

(** Drops the white space at the end: a character is kept when it is not
    white space or something is kept after it. *)
Fixpoint trim_end (s : string) : string :=
  match s with
  | String c s' =>
      match trim_end s' with
      | EmptyString => if is_space c then EmptyString else String c EmptyString
      | t => String c t
      end
  | EmptyString => EmptyString
  end.

Definition trim (s : string) : string := trim_end (trim_start s).

End Js.
Import Js.

(** ** Exceptions *)

Inductive ErrorCode := MethodNotFound | InvalidParams | InternalError.

(** The numbers of the codes in the SDK's [ErrorCode] (JSON-RPC), as
    a template literal prints them. *)
Definition code_number (c : ErrorCode) : string :=
  match c with
  | MethodNotFound => "-32601"
  | InvalidParams => "-32602"
  | InternalError => "-32603"
  end.

(** What the program throws: a plain [Error] (a [TypeError] of the engine
    included) or the SDK's [McpError]; each with the [message] of the
    error object. *)
Inductive Exn :=
| Error (message : string)
| McpError (code : ErrorCode) (message : string).

Definition exn_message (e : Exn) : string :=
  match e with Error m => m | McpError _ m => m end.

(** [new McpError(code, message)]: the SDK's constructor passes
    [`MCP error ${code}: ${message}`] on to [Error], so that is the
    message of the error object, and of the error response made of it. *)
Definition new_McpError (c : ErrorCode) (message : string) : Exn :=
  McpError c ("MCP error " +:+ code_number c +:+ ": " +:+ message).

Inductive Result (A : Type) :=
| Throw (e : Exn)
| Ok (a : A).
Arguments Throw {A} e.
Arguments Ok {A} a.

#[global] Instance Result_ret : MRet Result := fun A a => Ok a.
#[global] Instance Result_bind : MBind Result := fun A B f r =>
  match r with
  | Throw e => Throw e
  | Ok a => f a
  end.

(** Reading a property of [undefined] throws the engine's TypeError. *)
Definition TypeError_undefined (k : string) : Exn :=
  Error ("Cannot read properties of undefined (reading '" +:+ k +:+ "')").

(** ** Tool definitions *)

Record Property := {
  p_name : string;
  p_type : string;
  p_enum : option (list string);
  p_description : string;
  p_default : option string;
}.

Record ToolDefinition := {
  name : string;
  description : string;
  properties : list Property;
  required : list string;
}.

(** ** What the engine and the process provide

    [Math.pow], [Math.round], [Math.floor] and the conversion of a number
    to an array index are the engine's; [Math_random n] is the value the
    [n]-th call of [Math.random()] returns in this run of the process. *)

Record Runtime := {
  Math_pow : float -> float -> float;
  Math_round : float -> float;
  Math_floor : float -> float;
  Math_random : nat -> float;
  array_index : float -> option nat;
  process_cwd : string;
}.

(** ** tools/calculator.ts *)

Module CalculatorTool.

Record CalculatorOutput := {
  result : float;
  operation : string;
  inputs_a : float;
  inputs_b : option JsVal;   (* present unless [input.b] is undefined *)
}.

Definition validOperations : list string :=
  ["add"; "subtract"; "multiply"; "divide"; "power"; "sqrt"].

Definition validateInput (input : option Args) : Result unit :=
  match input with
  | None => Throw (TypeError_undefined "operation")
  | Some o =>
      let op := prop o "operation" in
      let a := prop o "a" in
      let b := prop o "b" in
      if negb (truthy op) then
        Throw (Error "Operation is required")
      else if negb (includes validOperations op) then
        Throw (Error ("Invalid operation. Must be one of: " +:+ join ", " validOperations))
      else if negb (is_number a) || isNaN a then
        Throw (Error ("Parameter " +:+ dq +:+ "a" +:+ dq +:+ " must be a valid number"))
      else if negb (strict_eq_str op "sqrt")
              && (is_undefined b || negb (is_number b) || isNaN b) then
        Throw (Error ("Parameter " +:+ dq +:+ "b" +:+ dq +:+ " is required for "
                      +:+ str_of op +:+ " operation"))
      else if strict_eq_str op "divide" && strict_eq_num b 0 then
        Throw (Error "Division by zero is not allowed")
      else if strict_eq_str op "sqrt" && lt_num a 0 then
        Throw (Error "Cannot calculate square root of negative number")
      else Ok ()
  end.

Section Calculate.

(** [Math.pow] is the engine's; the calculator is modelled over any. *)
Variable Math_pow : float -> float -> float.

(** The [switch] of [calculate]. *)
Definition switch_operation (op : JsVal) (a b : float) : Result float :=
  if strict_eq_str op "add" then Ok (a + b)%float
  else if strict_eq_str op "subtract" then Ok (a - b)%float
  else if strict_eq_str op "multiply" then Ok (a * b)%float
  else if strict_eq_str op "divide" then Ok (a / b)%float
  else if strict_eq_str op "power" then Ok (Math_pow a b)
  else if strict_eq_str op "sqrt" then Ok (PrimFloat.sqrt a)
  else Throw (Error "Invalid operation").

Definition calculate (input : option Args) : Result CalculatorOutput :=
  _ ← validateInput input;
  let o := default ∅ input in
  let op := prop o "operation" in
  let a := num_of (prop o "a") in
  r ← switch_operation op a (num_of (prop o "b"));
  Ok {| result := r;
        operation := str_of op;
        inputs_a := a;
        inputs_b := if is_undefined (prop o "b") then None else Some (prop o "b") |}.

End Calculate.

Definition getToolDefinition : ToolDefinition := {|
  name := "calculator";
  description := "Performs mathematical operations including add, subtract, multiply, divide, power, and square root";
  properties := [
    {| p_name := "operation"; p_type := "string";
       p_enum := Some ["add"; "subtract"; "multiply"; "divide"; "power"; "sqrt"];
       p_description := "The mathematical operation to perform"; p_default := None |};
    {| p_name := "a"; p_type := "number"; p_enum := None;
       p_description := "The first operand"; p_default := None |};
    {| p_name := "b"; p_type := "number"; p_enum := None;
       p_description := "The second operand (not required for sqrt)"; p_default := None |} ];
  required := ["operation"; "a"];
|}.

End CalculatorTool.

(** ** Node's [path] module (POSIX) *)

Module Path.

Definition slash : Ascii.ascii := Ascii.ascii_of_nat 47.

Definition is_slash (c : Ascii.ascii) : bool :=
  Nat.eqb (Ascii.nat_of_ascii c) 47.

(** The pieces of [s] between its slashes (never an empty list). *)
Fixpoint split (s : string) : list string :=
  match s with
  | EmptyString => [EmptyString]
  | String c s' =>
      if is_slash c then EmptyString :: split s'
      else match split s' with
           | h :: t => String c h :: t
           | [] => [String c EmptyString]
           end
  end.

(** One segment of [normalizeString] for an absolute path: an empty
    segment and [.] are skipped, [..] drops the segment before it (and
    nothing at the root). *)
Definition normalize_step (acc : list string) (seg : string) : list string :=
  if String.eqb seg "" || String.eqb seg "." then acc
  else if String.eqb seg ".." then removelast acc
  else acc ++ [seg].

Definition normalize (segs : list string) : list string :=
  fold_left normalize_step segs [].

Definition render (segs : list string) : string :=
  "/" +:+ String.concat "/" segs.

Definition isAbsolute (p : string) : bool :=
  match p with
  | String c _ => is_slash c
  | EmptyString => false
  end.

(** [path.resolve(p)] in a process whose working directory is [cwd]
    (an absolute path): a relative [p], the empty one included, is taken
    from [cwd]; the result is absolute and normalized. *)
Definition resolve_segments (cwd p : string) : list string :=
  normalize (split (if isAbsolute p then p else cwd +:+ "/" +:+ p)).

Definition resolve (cwd p : string) : string :=
  render (resolve_segments cwd p).

(** [k] leads to [k'] or to a directory above it. *)
Fixpoint is_prefix (k k' : list string) : bool :=
  match k, k' with
  | [], _ => true
  | s :: k1, s' :: k1' => String.eqb s s' && is_prefix k1 k1'
  | _ :: _, [] => false
  end.

(** The path [p] is the directory [dir] or lies somewhere under it. *)
Definition within (cwd dir p : string) : bool :=
  is_prefix (resolve_segments cwd dir) (resolve_segments cwd p).

Definition string_of_rev (l : list Ascii.ascii) : string :=
  String.string_of_list_ascii (rev l).

(** The scan of [path.dirname] from the right over the characters after
    the first one: the slashes at the end are passed, then the last
    name; what is left of the slash before that name is kept. *)
Fixpoint drop_slashes (l : list Ascii.ascii) : list Ascii.ascii :=
  match l with
  | c :: l' => if is_slash c then drop_slashes l' else l
  | [] => []
  end.

Fixpoint drop_name (l : list Ascii.ascii) : list Ascii.ascii :=
  match l with
  | c :: l' => if is_slash c then l else drop_name l'
  | [] => []
  end.

Definition dirname (p : string) : string :=
  match p with
  | EmptyString => "."
  | String c0 rest =>
      let hasRoot := is_slash c0 in
      match drop_name (drop_slashes (rev (String.list_ascii_of_string rest))) with
      | [] => if hasRoot then "/" else "."
      | _ :: kept =>
          match kept with
          | [] => if hasRoot then "//" else String c0 EmptyString
          | _ => String c0 (string_of_rev kept)
          end
      end
  end.

End Path.

(** ** The file tree behind Node's [fs/promises]

    The operating system's files are not part of the program: they are
    modelled as a finite map from a normalized absolute path (its list of
    segments) to a file with its text or a directory.  The root is a
    directory that always exists.  Every operation walks the path from
    the root, as the system does; the limits on the length of a name and
    of a path are those of Linux.

    A file is held as its text: the string that reading its bytes as
    UTF-8 gives.  A write encodes the string as UTF-8, and the file then
    holds the text of these bytes; a file whose text has a code unit from
    256 on is outside the embedding.

    The process has every permission on every entry, nothing is a
    symbolic link and the disk is never full: the faults that come from
    these are outside the model. *)

Module Fs.

Inductive node :=
| File (content : string)
| Dir.

Abbreviation tree := (gmap (list string) node).

(** The [code] of a rejected operation: an error number of the system,
    or the code under which Node itself refuses an argument. *)
Inductive IOError :=
| ENOENT
| ENOTDIR
| EISDIR
| EEXIST
| ENAMETOOLONG
| ERR_INVALID_ARG_TYPE
| ERR_INVALID_ARG_VALUE.

Definition is_ENOENT (e : IOError) : bool :=
  match e with ENOENT => true | _ => false end.

(** An error number of the system, as against a refusal by Node's own
    check of an argument. *)
Definition is_errno (e : IOError) : bool :=
  match e with
  | ERR_INVALID_ARG_TYPE | ERR_INVALID_ARG_VALUE => false
  | _ => true
  end.

(** The text of a fault.  To each of its own two refusals Node appends
    what it received; that part is left out. *)
Definition describe (e : IOError) : string :=
  match e with
  | ENOENT => "ENOENT: no such file or directory"
  | ENOTDIR => "ENOTDIR: not a directory"
  | EISDIR => "EISDIR: illegal operation on a directory"
  | EEXIST => "EEXIST: file already exists"
  | ENAMETOOLONG => "ENAMETOOLONG: name too long"
  | ERR_INVALID_ARG_TYPE =>
      "The " +:+ dq +:+ "data" +:+ dq
      +:+ " argument must be of type string or an instance of Buffer, TypedArray, or DataView."
  | ERR_INVALID_ARG_VALUE =>
      "The argument 'path' must be a string, Uint8Array, or URL without null bytes."
  end.

(** The error object of a rejected operation, with its [code] and its
    [message]. *)
Record Fault := { code : IOError; fault_message : string }.

(** The fault of a call on a path: an error number comes with the name
    of the system call and the path. *)
Definition fault (e : IOError) (syscall p : string) : Fault :=
  {| code := e;
     fault_message :=
       if is_errno e then describe e +:+ ", " +:+ syscall +:+ " '" +:+ p +:+ "'"
       else describe e |}.

(** The fault of a call that names no path. *)
Definition fault_bare (e : IOError) (what : string) : Fault :=
  {| code := e; fault_message := describe e +:+ what |}.

(** UTF-8 of a code unit below 256: itself as one byte when it is below
    128, and two bytes otherwise. *)
Definition utf8_encode_unit (c : Ascii.ascii) : string :=
  let n := Ascii.nat_of_ascii c in
  if Nat.ltb n 128 then String c EmptyString
  else String (Ascii.ascii_of_nat (192 + n / 64))
         (String (Ascii.ascii_of_nat (128 + n mod 64)) EmptyString).

Fixpoint utf8_encode (s : string) : string :=
  match s with
  | EmptyString => EmptyString
  | String c s' => utf8_encode_unit c +:+ utf8_encode s'
  end.

(** The string that bytes are the UTF-8 form of; [None] when the bytes
    are malformed or their text has a code unit from 256 on. *)
Fixpoint utf8_decode (bytes : string) : option string :=
  match bytes with
  | EmptyString => Some EmptyString
  | String b rest =>
      let n := Ascii.nat_of_ascii b in
      if Nat.ltb n 128 then String b <$> utf8_decode rest
      else
        match rest with
        | String b2 rest2 =>
            let n2 := Ascii.nat_of_ascii b2 in
            if (Nat.eqb n 194 || Nat.eqb n 195) && Nat.leb 128 n2 && Nat.ltb n2 192
            then String (Ascii.ascii_of_nat ((n - 192) * 64 + (n2 - 128)))
                   <$> utf8_decode rest2
            else None
        | EmptyString => None
        end
  end.

(** The text of a file that holds these bytes (for bytes whose text is
    outside the embedding it does not matter: none are ever written). *)
Definition utf8_text (bytes : string) : string := default EmptyString (utf8_decode bytes).

Definition utf8_length (s : string) : nat := String.length (utf8_encode s).

Definition NAME_MAX : nat := 255.
Definition PATH_MAX : nat := 4096.

Definition name_too_long (s : string) : bool := Nat.ltb NAME_MAX (utf8_length s).
#[global] Arguments name_too_long : simpl never.

Fixpoint has_nul (s : string) : bool :=
  match s with
  | EmptyString => false
  | String c s' => Nat.eqb (Ascii.nat_of_ascii c) 0 || has_nul s'
  end.

(** What is refused before the path is walked: Node refuses a path with
    a null byte, the system a path that does not fit [PATH_MAX] with its
    closing byte. *)
Definition check_path (p : string) : option IOError :=
  if has_nul p then Some ERR_INVALID_ARG_VALUE
  else if Nat.leb PATH_MAX (utf8_length p) then Some ENAMETOOLONG
  else None.
#[global] Arguments check_path : simpl never.

Definition key (p : string) : list string := Path.normalize (Path.split p).

Definition node_at (t : tree) (k : list string) : option node :=
  match k with
  | [] => Some Dir
  | _ => t !! k
  end.

(** Walks [rest] down from the directory [here]; a name that is too long
    is refused where it is looked up. *)
Fixpoint walk (t : tree) (here rest : list string) : IOError + node :=
  match rest with
  | [] =>
      match node_at t here with
      | Some n => inr n
      | None => inl ENOENT
      end
  | s :: rest' =>
      match node_at t here with
      | Some Dir =>
          if name_too_long s then inl ENAMETOOLONG
          else walk t (here ++ [s]) rest'
      | Some (File _) => inl ENOTDIR
      | None => inl ENOENT
      end
  end.

Definition stat (t : tree) (k : list string) : IOError + node := walk t [] k.

(** What a system call finds at the path [p]. *)
Definition locate (t : tree) (p : string) : IOError + node :=
  match check_path p with
  | Some e => inl e
  | None => stat t (key p)
  end.

(** [fs.readFile(p, 'utf-8')]. *)
Definition readFile (t : tree) (p : string) : Fault + string :=
  match locate t p with
  | inl e => inl (fault e "open" p)
  | inr Dir => inl (fault_bare EISDIR ", read")
  | inr (File c) => inr c
  end.

(** [fs.mkdir(p, { recursive: true })]: every missing directory on the
    way is created; a file on the way or a name that is too long stops
    it, and what was created before stays. *)
Fixpoint mkdir_walk (t : tree) (here rest : list string) : tree * (IOError + unit) :=
  match node_at t here with
  | Some (File _) =>
      (t, inl (match rest with [] => EEXIST | _ => ENOTDIR end))
  | found =>
      let t' := match found with None => <[here := Dir]> t | _ => t end in
      match rest with
      | [] => (t', inr ())
      | s :: rest' =>
          if name_too_long s then (t', inl ENAMETOOLONG)
          else mkdir_walk t' (here ++ [s]) rest'
      end
  end.

Definition mkdir_recursive (t : tree) (p : string) : tree * (Fault + unit) :=
  match check_path p with
  | Some e => (t, inl (fault e "mkdir" p))
  | None =>
      match mkdir_walk t [] (key p) with
      | (t', inl e) => (t', inl (fault e "mkdir" p))
      | (t', inr _) => (t', inr ())
      end
  end.

(** [fs.writeFile(p, data, 'utf-8')]: data that is not a string is
    refused before the path is looked at; the directory of [p] must
    exist; the file is created or replaced, and holds the text of the
    bytes that encode the string. *)
Definition writeFile (t : tree) (p : string) (data : JsVal) : tree * (Fault + unit) :=
  match data with
  | JStr c =>
      match check_path p with
      | Some e => (t, inl (fault e "open" p))
      | None =>
          let k := key p in
          match k with
          | [] => (t, inl (fault EISDIR "open" p))
          | _ =>
              match stat t (removelast k) with
              | inl e => (t, inl (fault e "open" p))
              | inr (File _) => (t, inl (fault ENOTDIR "open" p))
              | inr Dir =>
                  if name_too_long (List.last k "") then
                    (t, inl (fault ENAMETOOLONG "open" p))
                  else
                    match t !! k with
                    | Some Dir => (t, inl (fault EISDIR "open" p))
                    | _ => (<[k := File (utf8_text (utf8_encode c))]> t, inr ())
                    end
              end
          end
      end
  | _ => (t, inl (fault ERR_INVALID_ARG_TYPE "open" p))
  end.

(** The name of [k'] when it lies directly in the directory [k]. *)
Fixpoint child_name (k k' : list string) : option string :=
  match k, k' with
  | [], [name] => Some name
  | s :: k1, s' :: k1' => if String.eqb s s' then child_name k1 k1' else None
  | _, _ => None
  end.

(** [fs.readdir(p, { withFileTypes: true })]: each entry with its name
    and whether it is a directory. *)
Definition readdir (t : tree) (p : string) : Fault + list (string * bool) :=
  match locate t p with
  | inl e => inl (fault e "scandir" p)
  | inr (File _) => inl (fault ENOTDIR "scandir" p)
  | inr Dir =>
      inr (omap (fun '(k', n) =>
                   name ← child_name (key p) k';
                   Some (name, match n with Dir => true | File _ => false end))
                (map_to_list t))
  end.

(** [fs.unlink(p)]. *)
Definition unlink (t : tree) (p : string) : tree * (Fault + unit) :=
  match locate t p with
  | inl e => (t, inl (fault e "unlink" p))
  | inr Dir => (t, inl (fault EISDIR "unlink" p))
  | inr (File _) => (delete (key p) t, inr ())
  end.

(** [fs.access(p)]. *)
Definition access (t : tree) (p : string) : Fault + unit :=
  match locate t p with
  | inl e => inl (fault e "access" p)
  | inr _ => inr ()
  end.

End Fs.

(** ** tools/file-ops.ts *)

Module FileOpsTool.

Record FileOpsOutput := {
  success : bool;
  operation : string;
  path : string;
  data : option (string + list string);
  message : option string;
}.

Record t := { allowedDirectories : list string }.

(** The constructor: without an argument, [/tmp] and the working
    directory. *)
Definition new (cwd : string) (allowed : option (list string)) : t :=
  {| allowedDirectories := default ["/tmp"; cwd] allowed |}.

Section Tool.

Variable cwd : string.
Variable this : t.

Definition validatePath (filePath : string) : Result string :=
  let resolvedPath := Path.resolve cwd filePath in
  let isAllowed :=
    existsb (fun dir => String.prefix (Path.resolve cwd dir) resolvedPath)
            (allowedDirectories this) in
  if negb isAllowed then
    Throw (Error ("Access denied. Path must be within allowed directories: "
                  +:+ join ", " (allowedDirectories this)))
  else Ok resolvedPath.

Definition validOperations : list string :=
  ["read"; "write"; "list"; "delete"; "exists"].

Definition validateInput (input : option Args) : Result unit :=
  match input with
  | None => Throw (TypeError_undefined "operation")
  | Some o =>
      let op := prop o "operation" in
      if negb (truthy op) then
        Throw (Error "Operation is required")
      else if negb (includes validOperations op) then
        Throw (Error ("Invalid operation. Must be one of: " +:+ join ", " validOperations))
      else if negb (truthy (prop o "path")) || negb (is_string (prop o "path")) then
        Throw (Error "Path is required and must be a string")
      else if strict_eq_str op "write" && is_undefined (prop o "content") then
        Throw (Error "Content is required for write operation")
      else Ok ()
  end.

Definition readFile (fs : Fs.tree) (filePath : string) : Result string :=
  match Fs.readFile fs filePath with
  | inr content => Ok content
  | inl e =>
      if Fs.is_ENOENT (Fs.code e) then Throw (Error ("File not found: " +:+ filePath))
      else Throw (Error ("Failed to read file: " +:+ Fs.fault_message e))
  end.

Definition writeFile (fs : Fs.tree) (filePath : string) (content : JsVal)
  : Fs.tree * Result unit :=
  let directory := Path.dirname filePath in
  match Fs.mkdir_recursive fs directory with
  | (fs1, inl e) =>
      (fs1, Throw (Error ("Failed to write file: " +:+ Fs.fault_message e)))
  | (fs1, inr _) =>
      match Fs.writeFile fs1 filePath content with
      | (fs2, inl e) =>
          (fs2, Throw (Error ("Failed to write file: " +:+ Fs.fault_message e)))
      | (fs2, inr _) => (fs2, Ok ())
      end
  end.

Definition listDirectory (fs : Fs.tree) (dirPath : string) : Result (list string) :=
  match Fs.readdir fs dirPath with
  | inr entries =>
      Ok (map (fun '(entry_name, isDirectory) =>
                 (if isDirectory : bool then "[DIR] " else "[FILE] ") +:+ entry_name)
              entries)
  | inl e =>
      if Fs.is_ENOENT (Fs.code e) then Throw (Error ("Directory not found: " +:+ dirPath))
      else Throw (Error ("Failed to list directory: " +:+ Fs.fault_message e))
  end.

Definition deleteFile (fs : Fs.tree) (filePath : string) : Fs.tree * Result unit :=
  match Fs.unlink fs filePath with
  | (fs1, inr _) => (fs1, Ok ())
  | (fs1, inl e) =>
      if Fs.is_ENOENT (Fs.code e)
      then (fs1, Throw (Error ("File not found: " +:+ filePath)))
      else (fs1, Throw (Error ("Failed to delete file: " +:+ Fs.fault_message e)))
  end.

Definition fileExists (fs : Fs.tree) (filePath : string) : bool :=
  match Fs.access fs filePath with
  | inr _ => true
  | inl _ => false
  end.

(** The number of entries as [`Found ${files.length} entries`] prints it. *)
Definition found_message (n : nat) : string :=
  "Found " +:+ pretty n +:+ " entries".

(** The [catch] of [performOperation]: the failure goes into the result. *)
Definition caught (result : FileOpsOutput) (e : Exn) : FileOpsOutput :=
  {| success := false; operation := operation result; path := path result;
     data := data result; message := Some (exn_message e) |}.

Definition performOperation (fs : Fs.tree) (input : option Args)
  : Fs.tree * Result FileOpsOutput :=
  match validateInput input with
  | Throw e => (fs, Throw e)
  | Ok _ =>
  let o := default ∅ input in
  let op := prop o "operation" in
  match validatePath (str_of (prop o "path")) with
  | Throw e => (fs, Throw e)
  | Ok validatedPath =>
  let result := {| success := false; operation := str_of op; path := validatedPath;
                   data := None; message := None |} in
  let done (d : option (string + list string)) (m : string) :=
    {| success := true; operation := str_of op; path := validatedPath;
       data := d; message := Some m |} in
  if strict_eq_str op "read" then
    match readFile fs validatedPath with
    | Ok content => (fs, Ok (done (Some (inl content)) "File read successfully"))
    | Throw e => (fs, Ok (caught result e))
    end
  else if strict_eq_str op "write" then
    match writeFile fs validatedPath (prop o "content") with
    | (fs1, Ok _) => (fs1, Ok (done None "File written successfully"))
    | (fs1, Throw e) => (fs1, Ok (caught result e))
    end
  else if strict_eq_str op "list" then
    match listDirectory fs validatedPath with
    | Ok files => (fs, Ok (done (Some (inr files)) (found_message (length files))))
    | Throw e => (fs, Ok (caught result e))
    end
  else if strict_eq_str op "delete" then
    match deleteFile fs validatedPath with
    | (fs1, Ok _) => (fs1, Ok (done None "File deleted successfully"))
    | (fs1, Throw e) => (fs1, Ok (caught result e))
    end
  else if strict_eq_str op "exists" then
    let exists_ := fileExists fs validatedPath in
    let text := if exists_ then "File exists" else "File does not exist" in
    (fs, Ok (done (Some (inl text)) text))
  else (fs, Ok result)
  end
  end.

End Tool.

Definition getToolDefinition : ToolDefinition := {|
  name := "file_operations";
  description := "Performs safe file system operations including read, write, list, delete, and exists checks";
  properties := [
    {| p_name := "operation"; p_type := "string";
       p_enum := Some ["read"; "write"; "list"; "delete"; "exists"];
       p_description := "The file operation to perform"; p_default := None |};
    {| p_name := "path"; p_type := "string"; p_enum := None;
       p_description := "The file or directory path"; p_default := None |};
    {| p_name := "content"; p_type := "string"; p_enum := None;
       p_description := "Content to write (required for write operation)";
       p_default := None |} ];
  required := ["operation"; "path"];
|}.

End FileOpsTool.

(** ** tools/weather.ts *)

Module WeatherTool.

Record ForecastEntry := {
  day : string;
  high : float;
  low : float;
  f_condition : option string;
}.

Record WeatherOutput := {
  location : string;
  temperature : float;
  units : string;
  condition : option string;   (* [None]: an index outside the array *)
  humidity : float;
  windSpeed : float;
  forecast : list ForecastEntry;
  timestamp : string;
}.

Definition conditions : list string :=
  ["Sunny"; "Partly Cloudy"; "Cloudy"; "Rainy"; "Stormy"; "Snowy"; "Foggy"; "Windy"].

Definition days : list string :=
  ["Monday"; "Tuesday"; "Wednesday"; "Thursday"; "Friday"; "Saturday"; "Sunday"].

Definition validateInput (input : option Args) : Result unit :=
  match input with
  | None => Throw (TypeError_undefined "location")
  | Some o =>
      let loc := prop o "location" in
      let u := prop o "units" in
      if negb (truthy loc) || negb (is_string loc) then
        Throw (Error "Location is required and must be a string")
      else if Nat.eqb (String.length (trim (str_of loc))) 0 then
        Throw (Error "Location cannot be empty")
      else if truthy u && negb (includes ["celsius"; "fahrenheit"] u) then
        Throw (Error ("Units must be either " +:+ dq +:+ "celsius" +:+ dq +:+ " or "
                      +:+ dq +:+ "fahrenheit" +:+ dq))
      else Ok ()
  end.

Section Weather.

Variable rt : Runtime.

(** [this.conditions[Math.floor(r * this.conditions.length)]] for a value
    [r] of [Math.random()]. *)
Definition pick_condition (r : float) : option string :=
  i ← array_index rt (Math_floor rt (r * 8)%float);
  conditions !! i.

(** One entry of the forecast; [n] counts the calls of [Math.random()]
    made so far. *)
Definition forecast_entry (temperature : float) (n : nat) (d : string)
  : ForecastEntry * nat :=
  ({| day := d;
      high := Math_round rt (temperature + Math_random rt n * 5)%float;
      low := Math_round rt (temperature - Math_random rt (n + 1) * 5)%float;
      f_condition := pick_condition (Math_random rt (n + 2)) |},
   n + 3).

(** [this.days.map(day => ...)], the calls of [Math.random()] in order. *)
Fixpoint map_days (temperature : float) (n : nat) (ds : list string)
  : list ForecastEntry * nat :=
  match ds with
  | [] => ([], n)
  | d :: ds' =>
      let '(e, n1) := forecast_entry temperature n d in
      let '(es, n2) := map_days temperature n1 ds' in
      (e :: es, n2)
  end.

Definition generateWeatherData (n : nat) (now : string) (loc : string) (u : JsVal)
  : WeatherOutput * nat :=
  let isCelsius := strict_eq_str u "celsius" in
  let baseTemp := (if isCelsius then 20 else 68)%float in
  let tempVariation := (if isCelsius then 10 else 18)%float in
  let temperature :=
    Math_round rt (baseTemp + (Math_random rt n * tempVariation - tempVariation / 2))%float in
  let cond := pick_condition (Math_random rt (n + 1)) in
  let humidity_ := Math_round rt (30 + Math_random rt (n + 2) * 50)%float in
  let windSpeed_ := Math_round rt (5 + Math_random rt (n + 3) * 20)%float in
  let '(forecast_, n') := map_days temperature (n + 4) days in
  ({| location := loc;
      temperature := temperature;
      units := if isCelsius then "Celsius" else "Fahrenheit";
      condition := cond;
      humidity := humidity_;
      windSpeed := windSpeed_;
      forecast := forecast_;
      timestamp := now |},
   n').

(** [n]: the calls of [Math.random()] made so far; [now]: what
    [new Date().toISOString()] returns at the call. *)
Definition getWeather (n : nat) (now : string) (input : option Args)
  : Result WeatherOutput * nat :=
  match validateInput input with
  | Throw e => (Throw e, n)
  | Ok _ =>
      let o := default ∅ input in
      let u := if truthy (prop o "units") then prop o "units" else JStr "celsius" in
      let '(out, n') := generateWeatherData n now (str_of (prop o "location")) u in
      (Ok out, n')
  end.

End Weather.

Definition getToolDefinition : ToolDefinition := {|
  name := "weather";
  description := "Retrieves current weather information and forecast for a specified location";
  properties := [
    {| p_name := "location"; p_type := "string"; p_enum := None;
       p_description := "The location to get weather for (e.g., " +:+ dq +:+ "San Francisco"
                        +:+ dq +:+ ", " +:+ dq +:+ "New York" +:+ dq +:+ ", " +:+ dq
                        +:+ "London" +:+ dq +:+ ")";
       p_default := None |};
    {| p_name := "units"; p_type := "string"; p_enum := Some ["celsius"; "fahrenheit"];
       p_description := "Temperature units (default: celsius)";
       p_default := Some "celsius" |} ];
  required := ["location"];
|}.

End WeatherTool.

(** ** index.ts: the server *)

Module MCPServer.

(** What a tool call answers with: the tool's output (the text of the
    response is its JSON form). *)
Inductive Payload :=
| PCalculator (r : CalculatorTool.CalculatorOutput)
| PWeather (r : WeatherTool.WeatherOutput)
| PFileOps (r : FileOpsTool.FileOpsOutput).

(** The envelope the caller receives: the content of a response, or the
    code and the message of an error response. *)
Inductive ToolCallResult :=
| Success (payload : Payload)
| Failure (kind : ErrorCode) (message : string).

(** What lies outside the server and changes while it runs. *)
Record World := {
  files : Fs.tree;
  draws : nat;        (* calls of [Math.random()] so far *)
  now : string;       (* the clock, as [toISOString] prints it *)
}.

Definition with_files (w : World) (fs : Fs.tree) : World :=
  {| files := fs; draws := draws w; now := now w |}.

Definition with_draws (w : World) (n : nat) : World :=
  {| files := files w; draws := n; now := now w |}.

(** The server object: of its three tools only the file tool has a field. *)
Record t := { fileOpsTool : FileOpsTool.t }.

Section Server.

Variable rt : Runtime.

Definition new : t :=
  {| fileOpsTool := FileOpsTool.new (process_cwd rt) None |}.

Variable this : t.

Definition handleCalculator (args : option Args) : Result Payload :=
  match CalculatorTool.calculate (Math_pow rt) args with
  | Ok r => Ok (PCalculator r)
  | Throw e => Throw (new_McpError InvalidParams ("Calculator error: " +:+ exn_message e))
  end.

Definition handleWeather (w : World) (args : option Args) : World * Result Payload :=
  match WeatherTool.getWeather rt (draws w) (now w) args with
  | (Ok r, n) => (with_draws w n, Ok (PWeather r))
  | (Throw e, n) =>
      (with_draws w n,
       Throw (new_McpError InvalidParams ("Weather error: " +:+ exn_message e)))
  end.

Definition handleFileOps (w : World) (args : option Args) : World * Result Payload :=
  match FileOpsTool.performOperation (process_cwd rt) (fileOpsTool this) (files w) args with
  | (fs, Ok r) => (with_files w fs, Ok (PFileOps r))
  | (fs, Throw e) =>
      (with_files w fs,
       Throw (new_McpError InvalidParams ("File operations error: " +:+ exn_message e)))
  end.

(** The handler of [ListToolsRequestSchema]. *)
Definition listToolsHandler : list ToolDefinition :=
  [ CalculatorTool.getToolDefinition;
    WeatherTool.getToolDefinition;
    FileOpsTool.getToolDefinition ].

(** The [switch] of the handler of [CallToolRequestSchema]. *)
Definition switch_name (w : World) (name_ : string) (args : option Args)
  : World * Result Payload :=
  if String.eqb name_ "calculator" then (w, handleCalculator args)
  else if String.eqb name_ "weather" then handleWeather w args
  else if String.eqb name_ "file_operations" then handleFileOps w args
  else (w, Throw (new_McpError MethodNotFound ("Unknown tool: " +:+ name_))).

(** Its [catch]: an [McpError] is thrown again, any other error becomes an
    internal error. *)
Definition callToolHandler (w : World) (name_ : string) (args : option Args)
  : World * Result Payload :=
  match switch_name w name_ args with
  | (w', Throw (Error m)) =>
      (w', Throw (new_McpError InternalError ("Tool execution failed: " +:+ m)))
  | other => other
  end.

(** The two operations as the caller sees them.  The SDK answers a thrown
    [McpError] with an error response that carries its code and its
    message, and any other thrown value with an internal error. *)
Definition listTools (w : World) : World * list ToolDefinition :=
  (w, listToolsHandler).

Definition callTool (w : World) (name_ : string) (args : option Args)
  : World * ToolCallResult :=
  match callToolHandler w name_ args with
  | (w', Ok p) => (w', Success p)
  | (w', Throw (McpError c m)) => (w', Failure c m)
  | (w', Throw (Error m)) => (w', Failure InternalError m)
  end.

End Server.

End MCPServer.

Import MCPServer.

(** ** The requests of the properties *)

(** The names that the dispatcher resolves. *)
Definition registered (name_ : string) : bool :=
  String.eqb name_ "calculator" || String.eqb name_ "weather"
  || String.eqb name_ "file_operations".

(** The argument object of a calculation. *)
Definition calculator_args (op : string) (a : float) (b : option float) : Args :=
  match b with
  | Some y => {[ "operation" := JStr op; "a" := JNum a; "b" := JNum y ]}
  | None => {[ "operation" := JStr op; "a" := JNum a ]}
  end.

(** The argument object of a file operation. *)
Definition file_args (op p : string) (content : option string) : Args :=
  match content with
  | Some c => {[ "operation" := JStr op; "path" := JStr p; "content" := JStr c ]}
  | None => {[ "operation" := JStr op; "path" := JStr p ]}
  end.

Definition is_Ok {A : Type} (r : Result A) : bool :=
  match r with Ok _ => true | Throw _ => false end.

(** ** The checks of the handlers, one by one *)

Module Validation.

Inductive Kind := Presence | TypeOf | PresenceAndType | Enum | Semantic.

Record Violation := { v_kind : Kind; v_field : string }.

(** One check of a handler: what it is about, when it fails, and what it
    reports then. *)
Record Check := {
  violation : Violation;
  fails : Args -> bool;
  report : Args -> string;
}.

(** The first check of a list that fails on the arguments. *)
Definition first_failure (checks : list Check) (o : Args) : option Check :=
  List.find (fun c => fails c o) checks.

(** What a handler that stops at the first failing check does. *)
Definition outcome (checks : list Check) (o : Args) : Result unit :=
  match first_failure checks o with
  | Some c => Throw (Error (report c o))
  | None => Ok ()
  end.

Definition reported (checks : list Check) (o : Args) : option Violation :=
  violation <$> first_failure checks o.

(** The conditions of [CalculatorTool.validateInput], in its order. *)
Definition calculator_checks : list Check := [
  {| violation := {| v_kind := Presence; v_field := "operation" |};
     fails := fun o => negb (truthy (prop o "operation"));
     report := fun _ => "Operation is required" |};
  {| violation := {| v_kind := Enum; v_field := "operation" |};
     fails := fun o => negb (includes CalculatorTool.validOperations (prop o "operation"));
     report := fun _ => "Invalid operation. Must be one of: "
                        +:+ join ", " CalculatorTool.validOperations |};
  {| violation := {| v_kind := TypeOf; v_field := "a" |};
     fails := fun o => negb (is_number (prop o "a")) || isNaN (prop o "a");
     report := fun _ => "Parameter " +:+ dq +:+ "a" +:+ dq +:+ " must be a valid number" |};
  {| violation := {| v_kind := PresenceAndType; v_field := "b" |};
     fails := fun o => negb (strict_eq_str (prop o "operation") "sqrt")
                       && (is_undefined (prop o "b") || negb (is_number (prop o "b"))
                           || isNaN (prop o "b"));
     report := fun o => "Parameter " +:+ dq +:+ "b" +:+ dq +:+ " is required for "
                        +:+ str_of (prop o "operation") +:+ " operation" |};
  {| violation := {| v_kind := Semantic; v_field := "b" |};
     fails := fun o => strict_eq_str (prop o "operation") "divide"
                       && strict_eq_num (prop o "b") 0;
     report := fun _ => "Division by zero is not allowed" |};
  {| violation := {| v_kind := Semantic; v_field := "a" |};
     fails := fun o => strict_eq_str (prop o "operation") "sqrt" && lt_num (prop o "a") 0;
     report := fun _ => "Cannot calculate square root of negative number" |} ].

(** The conditions of [FileOpsTool.validateInput] and then of
    [FileOpsTool.validatePath], as [performOperation] runs them. *)
Definition file_checks (cwd : string) (tool : FileOpsTool.t) : list Check := [
  {| violation := {| v_kind := Presence; v_field := "operation" |};
     fails := fun o => negb (truthy (prop o "operation"));
     report := fun _ => "Operation is required" |};
  {| violation := {| v_kind := Enum; v_field := "operation" |};
     fails := fun o => negb (includes FileOpsTool.validOperations (prop o "operation"));
     report := fun _ => "Invalid operation. Must be one of: "
                        +:+ join ", " FileOpsTool.validOperations |};
  {| violation := {| v_kind := PresenceAndType; v_field := "path" |};
     fails := fun o => negb (truthy (prop o "path")) || negb (is_string (prop o "path"));
     report := fun _ => "Path is required and must be a string" |};
  {| violation := {| v_kind := Presence; v_field := "content" |};
     fails := fun o => strict_eq_str (prop o "operation") "write"
                       && is_undefined (prop o "content");
     report := fun _ => "Content is required for write operation" |};
  {| violation := {| v_kind := Semantic; v_field := "path" |};
     fails := fun o =>
       negb (existsb (fun dir => String.prefix (Path.resolve cwd dir)
                                   (Path.resolve cwd (str_of (prop o "path"))))
               (FileOpsTool.allowedDirectories tool));
     report := fun _ => "Access denied. Path must be within allowed directories: "
                        +:+ join ", " (FileOpsTool.allowedDirectories tool) |} ].

(** The conditions of [WeatherTool.validateInput], in its order. *)
Definition weather_checks : list Check := [
  {| violation := {| v_kind := PresenceAndType; v_field := "location" |};
     fails := fun o => negb (truthy (prop o "location")) || negb (is_string (prop o "location"));
     report := fun _ => "Location is required and must be a string" |};
  {| violation := {| v_kind := Semantic; v_field := "location" |};
     fails := fun o => Nat.eqb (String.length (trim (str_of (prop o "location")))) 0;
     report := fun _ => "Location cannot be empty" |};
  {| violation := {| v_kind := Enum; v_field := "units" |};
     fails := fun o => truthy (prop o "units")
                       && negb (includes ["celsius"; "fahrenheit"] (prop o "units"));
     report := fun _ => "Units must be either " +:+ dq +:+ "celsius" +:+ dq +:+ " or "
                        +:+ dq +:+ "fahrenheit" +:+ dq |} ].

(** The order that the specification words: first the presence of every
    required field, in the declared order of the fields; then the type of
    every field that is present; then the membership of every enumerated
    field that is present; then the constraints of the tool. *)
Definition present (o : Args) (f : string) : bool := negb (is_undefined (prop o f)).

Definition spec_presence (d : ToolDefinition) (o : Args) : list Violation :=
  map (fun f => {| v_kind := Presence; v_field := f |})
      (List.filter (fun f => negb (present o f)) (required d)).

Definition spec_type (d : ToolDefinition) (o : Args) : list Violation :=
  map (fun p => {| v_kind := TypeOf; v_field := p_name p |})
      (List.filter (fun p => present o (p_name p)
                             && negb (String.eqb (typeof (prop o (p_name p))) (p_type p)))
                   (properties d)).

Definition spec_enum (d : ToolDefinition) (o : Args) : list Violation :=
  map (fun p => {| v_kind := Enum; v_field := p_name p |})
      (List.filter (fun p => present o (p_name p)
                             && match p_enum p with
                                | Some values => negb (includes values (prop o (p_name p)))
                                | None => false
                                end)
                   (properties d)).

Definition spec_semantic (checks : list Check) (o : Args) : list Violation :=
  map violation
      (List.filter (fun c => match v_kind (violation c) with
                             | Semantic => fails c o
                             | _ => false
                             end) checks).

Definition spec_order_violations (d : ToolDefinition) (checks : list Check) (o : Args)
  : list Violation :=
  spec_presence d o ++ spec_type d o ++ spec_enum d o ++ spec_semantic checks o.

Definition spec_order_first (d : ToolDefinition) (checks : list Check) (o : Args)
  : option Violation :=
  head (spec_order_violations d checks o).

End Validation.

(** The two checks of the file tool, as [performOperation] runs them. *)
Definition file_validation (cwd : string) (tool : FileOpsTool.t) (o : Args) : Result unit :=
  _ ← FileOpsTool.validateInput (Some o);
  _ ← FileOpsTool.validatePath cwd tool (str_of (prop o "path"));
  Ok ().

(** ** Concrete surroundings for running the model *)

(** An engine whose [Math.random()] always returns one half, with
    rounding left out, and a process started in [/home/user]. *)
Definition sample_rt : Runtime := {|
  Math_pow := fun a _ => a;
  Math_round := fun x => x;
  Math_floor := fun x => x;
  Math_random := fun _ => 0.5%float;
  array_index := fun x => if PrimFloat.eqb x 4 then Some 4 else None; (* 0.5 * 8 *)
  process_cwd := "/home/user";
|}.

(** A file tree with [/tmp], [/home/user] and one file. *)
Definition sample_files : Fs.tree :=
  {[ ["tmp"] := Fs.Dir;
     ["home"] := Fs.Dir;
     ["home"; "user"] := Fs.Dir;
     ["tmp"; "notes.txt"] := Fs.File "remember" ]}.

Definition sample_world : World :=
  {| files := sample_files; draws := 0; now := "2026-01-01T00:00:00.000Z" |}.

Definition sample_server : MCPServer.t := MCPServer.new sample_rt.

Definition sample_tool : FileOpsTool.t := FileOpsTool.new "/home/user" None.

(** The files after [hello] was written to [/tmp/a/b.txt], and after
    that file was deleted again. *)
Definition sample_written : Fs.tree :=
  (FileOpsTool.performOperation "/home/user" sample_tool sample_files
     (Some (file_args "write" "/tmp/a/b.txt" (Some "hello")))).1.

Definition sample_deleted : Fs.tree :=
  (FileOpsTool.performOperation "/home/user" sample_tool sample_written
     (Some (file_args "delete" "/tmp/a/b.txt" None))).1.

(** Two paths under [/tmp] that the system does not take: one with a
    null byte, one whose last name has 300 bytes. *)
Definition sample_nul_path : string :=
  "/tmp/a" +:+ String (Ascii.ascii_of_nat 0) "b".

Definition sample_long_path : string :=
  "/tmp/" +:+ String.concat "" (repeat "a" 300).

(** ** Vocabulary of the properties of paths and directories *)

Fixpoint has_slash (s : string) : bool :=
  match s with
  | EmptyString => false
  | String c s' => Path.is_slash c || has_slash s'
  end.

(** A plain name: a segment as a normalized path has them. *)
Definition plain_name (s : string) : bool :=
  negb (String.eqb s "") && negb (String.eqb s ".") && negb (String.eqb s "..")
  && negb (has_slash s).

(** ** Vocabulary of the faults of the file operations *)

(** The fault, if there is one, with which the file system rejects the
    operation [op] of the tool on the validated path [p'] ([c]: the
    content of a write, whose directory is made first). *)
Definition io_fault (op : string) (t : Fs.tree) (p' c : string) : option Fs.Fault :=
  if String.eqb op "read" then
    match Fs.readFile t p' with inl e => Some e | inr _ => None end
  else if String.eqb op "write" then
    match Fs.mkdir_recursive t (Path.dirname p') with
    | (_, inl e) => Some e
    | (t1, inr _) =>
        match Fs.writeFile t1 p' (JStr c) with
        | (_, inl e) => Some e
        | (_, inr _) => None
        end
    end
  else if String.eqb op "list" then
    match Fs.readdir t p' with inl e => Some e | inr _ => None end
  else if String.eqb op "delete" then
    match (Fs.unlink t p').2 with inl e => Some e | inr _ => None end
  else None.

(** The message under which the [catch] of the operation reports a
    fault: a missing entry under its own message (a write apart), any
    other fault under [Failed to ...] with the message of the fault. *)
Definition fault_report (op p' : string) (e : Fs.Fault) : string :=
  if String.eqb op "write" then "Failed to write file: " +:+ Fs.fault_message e
  else if String.eqb op "list" then
    if Fs.is_ENOENT (Fs.code e) then "Directory not found: " +:+ p'
    else "Failed to list directory: " +:+ Fs.fault_message e
  else
    if Fs.is_ENOENT (Fs.code e) then "File not found: " +:+ p'
    else "Failed to " +:+ op +:+ " file: " +:+ Fs.fault_message e.

(** The payload of an operation that failed at the files. *)
Definition failed_output (op p' m : string) : FileOpsTool.FileOpsOutput :=
  {| FileOpsTool.success := false; FileOpsTool.operation := op; FileOpsTool.path := p';
     FileOpsTool.data := None; FileOpsTool.message := Some m |}.

(** How the message of an error response begins: the SDK's
    [MCP error <code>: ], then the prefix under which the dispatcher
    reports a failure of the tool of this name. *)
Definition error_prefix (name_ : string) : string :=
  if String.eqb name_ "calculator" then "MCP error -32602: Calculator error: "
  else if String.eqb name_ "weather" then "MCP error -32602: Weather error: "
  else if String.eqb name_ "file_operations" then "MCP error -32602: File operations error: "
  else "MCP error -32601: Unknown tool: ".

(** The output of a calculation. *)
Definition calculator_output (r : float) (op : string) (a : float) (b : option JsVal)
  : CalculatorTool.CalculatorOutput :=
  {| CalculatorTool.result := r; CalculatorTool.operation := op;
     CalculatorTool.inputs_a := a; CalculatorTool.inputs_b := b |}.

(** A weather request whose units are the number zero, and what the
    sample engine answers to it. *)
Definition sample_weather_args : Args :=
  {[ "location" := JStr "Oslo"; "units" := JNum 0 ]}.

Definition sample_weather_output : WeatherTool.WeatherOutput :=
  (WeatherTool.generateWeatherData sample_rt 0 "2026-01-01T00:00:00.000Z" "Oslo"
     (JStr "celsius")).1.

(** * Properties *)

Import Validation.

(** ** The dispatcher *)

Section Dispatcher.

Variable rt : Runtime.
Variable this : MCPServer.t.

Lemma switch_name_unregistered w name_ args :
  registered name_ = false ->
  switch_name rt this w name_ args
  = (w, Throw (McpError MethodNotFound ("MCP error -32601: Unknown tool: " +:+ name_))).
Proof.
  unfold registered, switch_name. intros H.
  apply orb_false_iff in H as [H H3]. apply orb_false_iff in H as [H1 H2].
  now rewrite H1, H2, H3.
Qed.

(** Every handler turns whatever its tool throws into [InvalidParams]. *)
Lemma handleCalculator_throws args e :
  handleCalculator rt args = Throw e -> exists m, e = McpError InvalidParams m.
Proof.
  unfold handleCalculator. destruct (CalculatorTool.calculate _ _); [|discriminate].
  intros [= <-]. eauto.
Qed.

Lemma handleWeather_throws w args w' e :
  handleWeather rt w args = (w', Throw e) -> exists m, e = McpError InvalidParams m.
Proof.
  unfold handleWeather. destruct (WeatherTool.getWeather _ _ _ _) as [[e'|r] n].
  - intros [= _ <-]. eauto.
  - discriminate.
Qed.

Lemma handleFileOps_throws w args w' e :
  handleFileOps rt this w args = (w', Throw e) -> exists m, e = McpError InvalidParams m.
Proof.
  unfold handleFileOps. destruct (FileOpsTool.performOperation _ _ _ _) as [fs [e'|r]].
  - intros [= _ <-]. eauto.
  - discriminate.
Qed.

Lemma switch_name_registered_throws w name_ args w' e :
  registered name_ = true ->
  switch_name rt this w name_ args = (w', Throw e) ->
  exists m, e = McpError InvalidParams m.
Proof.
  unfold registered, switch_name. intros Hreg.
  destruct (String.eqb name_ "calculator").
  { intros [= _ H]. eauto using handleCalculator_throws. }
  destruct (String.eqb name_ "weather"); [eauto using handleWeather_throws|].
  destruct (String.eqb name_ "file_operations"); [eauto using handleFileOps_throws|].
  discriminate.
Qed.

(** What the switch throws is always an [McpError], never a plain error. *)
Lemma switch_name_throws w name_ args w' e :
  switch_name rt this w name_ args = (w', Throw e) ->
  exists c m, e = McpError c m /\ c <> InternalError.
Proof.
  destruct (registered name_) eqn:Hreg; intros H.
  - destruct (switch_name_registered_throws _ _ _ _ _ Hreg H) as [m ->].
    exists InvalidParams, m. split; [done|discriminate].
  - rewrite switch_name_unregistered in H by done. injection H as _ <-.
    eexists _, _. split; [done|discriminate].
Qed.

(** The envelope is the outcome of the switch: its [catch] never fires on
    a plain error. *)
Lemma callTool_switch w name_ args :
  callTool rt this w name_ args
  = match switch_name rt this w name_ args with
    | (w', Ok p) => (w', Success p)
    | (w', Throw e) =>
        (w', Failure (match e with McpError c _ => c | Error _ => InternalError end)
                     (exn_message e))
    end.
Proof.
  unfold callTool, callToolHandler.
  destruct (switch_name rt this w name_ args) as [w' [e|p]] eqn:H; [|done].
  destruct (switch_name_throws _ _ _ _ _ H) as (c & m & -> & _). done.
Qed.

End Dispatcher.

(** C1. A call of a tool name other than calculator, weather and
    file_operations, with any arguments, is answered with the failure
    MethodNotFound; the world is left as it was, so every later call is
    answered as if the failed one had not been made. *)
Theorem callTool_unknown_tool (rt : Runtime) (this : MCPServer.t) (w : World)
    (name_ : string) (args : option Args) :
  name_ <> "calculator" -> name_ <> "weather" -> name_ <> "file_operations" ->
  callTool rt this w name_ args
  = (w, Failure MethodNotFound ("MCP error -32601: Unknown tool: " +:+ name_))
  /\ forall name' args',
       callTool rt this (callTool rt this w name_ args).1 name' args'
       = callTool rt this w name' args'.
Proof.
  intros H1 H2 H3.
  assert (Hreg : registered name_ = false).
  { unfold registered. apply String.eqb_neq in H1, H2, H3. now rewrite H1, H2, H3. }
  assert (Hcall : callTool rt this w name_ args
                  = (w, Failure MethodNotFound
                          ("MCP error -32601: Unknown tool: " +:+ name_))).
  { rewrite callTool_switch, switch_name_unregistered by done. done. }
  split; [done|]. intros name' args'. now rewrite Hcall.
Qed.

Lemma callTool_unknown_tool_witness :
  callTool sample_rt sample_server sample_world "nonexistent" (Some ∅)
  = (sample_world, Failure MethodNotFound "MCP error -32601: Unknown tool: nonexistent")
  /\ forall name' args',
       callTool sample_rt sample_server
         (callTool sample_rt sample_server sample_world "nonexistent" (Some ∅)).1 name' args'
       = callTool sample_rt sample_server sample_world name' args'.
Proof.
  apply (callTool_unknown_tool sample_rt sample_server sample_world "nonexistent" (Some ∅));
    discriminate.
Defined.

(** The call named in the specification, in every world. *)
Lemma callTool_nonexistent (rt : Runtime) (this : MCPServer.t) (w : World) :
  callTool rt this w "nonexistent" (Some ∅)
  = (w, Failure MethodNotFound "MCP error -32601: Unknown tool: nonexistent").
Proof. reflexivity. Qed.

(** ** Listing *)

(** A registered name is never answered with MethodNotFound. *)
Lemma callTool_registered_found (rt : Runtime) (this : MCPServer.t) (w : World)
    (name_ : string) (args : option Args) :
  registered name_ = true ->
  forall m, (callTool rt this w name_ args).2 <> Failure MethodNotFound m.
Proof.
  intros Hreg m. rewrite callTool_switch.
  destruct (switch_name rt this w name_ args) as [w' [e|p]] eqn:H; [|discriminate].
  destruct (switch_name_registered_throws _ _ _ _ _ _ _ Hreg H) as [m' ->]. discriminate.
Qed.

Lemma registered_listed (name_ : string) :
  registered name_ = true <-> name_ ∈ map name listToolsHandler.
Proof.
  unfold registered. cbn. rewrite !orb_true_iff, !String.eqb_eq.
  rewrite !elem_of_cons, elem_of_nil. tauto.
Qed.

(** C9. In every world the listing is the three definitions calculator,
    weather, file_operations, in that order and without a repeated name,
    and it leaves the world as it is; the names listed are exactly the
    names the dispatcher resolves; and a listing made after any call
    of a tool is the listing made before it. *)
Theorem listTools_exact (rt : Runtime) (this : MCPServer.t) (w : World) :
  listTools w
  = (w, [ CalculatorTool.getToolDefinition;
          WeatherTool.getToolDefinition;
          FileOpsTool.getToolDefinition ])
  /\ map name (listTools w).2 = ["calculator"; "weather"; "file_operations"]
  /\ NoDup (map name (listTools w).2)
  /\ (forall name_ args,
        name_ ∈ map name (listTools w).2
        <-> forall m, (callTool rt this w name_ args).2 <> Failure MethodNotFound m)
  /\ (forall name_ args,
        (listTools (callTool rt this w name_ args).1).2 = (listTools w).2)
  /\ (listTools (listTools w).1).2 = (listTools w).2.
Proof.
  split; [reflexivity|]. split; [reflexivity|]. split.
  { cbn. repeat (apply NoDup_cons; split;
                 [rewrite ?elem_of_cons, elem_of_nil; intuition discriminate|]).
    apply NoDup_nil_2. }
  split; [|split; reflexivity].
  intros name_ args. change (listTools w).2 with listToolsHandler.
  rewrite <- registered_listed. split.
  - intros Hreg. now apply callTool_registered_found.
  - intros H. destruct (registered name_) eqn:Hreg; [done|]. exfalso.
    apply (H ("MCP error -32601: Unknown tool: " +:+ name_)).
    now rewrite callTool_switch, switch_name_unregistered.
Qed.

(** ** The calculator *)

(** C6. The five calls of the calculator that the specification lists:
    15 + 7 is 22, 8 * 9 is 72, the square root of 144 is 12; a division by
    zero and the square root of -1 are refused with InvalidParams. *)
Theorem calculator_examples (rt : Runtime) (this : MCPServer.t) (w : World) :
  callTool rt this w "calculator" (Some (calculator_args "add" 15 (Some 7%float)))
  = (w, Success (PCalculator
       {| CalculatorTool.result := 22; CalculatorTool.operation := "add";
          CalculatorTool.inputs_a := 15; CalculatorTool.inputs_b := Some (JNum 7) |}))
  /\ callTool rt this w "calculator" (Some (calculator_args "multiply" 8 (Some 9%float)))
  = (w, Success (PCalculator
       {| CalculatorTool.result := 72; CalculatorTool.operation := "multiply";
          CalculatorTool.inputs_a := 8; CalculatorTool.inputs_b := Some (JNum 9) |}))
  /\ callTool rt this w "calculator" (Some (calculator_args "sqrt" 144 None))
  = (w, Success (PCalculator
       {| CalculatorTool.result := 12; CalculatorTool.operation := "sqrt";
          CalculatorTool.inputs_a := 144; CalculatorTool.inputs_b := None |}))
  /\ callTool rt this w "calculator" (Some (calculator_args "divide" 10 (Some 0%float)))
  = (w, Failure InvalidParams
          "MCP error -32602: Calculator error: Division by zero is not allowed")
  /\ callTool rt this w "calculator" (Some (calculator_args "sqrt" (-1) None))
  = (w, Failure InvalidParams
          "MCP error -32602: Calculator error: Cannot calculate square root of negative number").
Proof. repeat split; vm_compute; reflexivity. Qed.

(** ** The weather tool *)

Section WeatherFacts.

Variable rt : Runtime.

(** The forecast has one entry for each day, in the order of the days. *)
Lemma map_days_day (temperature : float) (ds : list string) (n : nat) :
  map WeatherTool.day (WeatherTool.map_days rt temperature n ds).1 = ds.
Proof.
  revert n. induction ds as [|d ds IH]; intros n; [reflexivity|].
  cbn [WeatherTool.map_days]. unfold WeatherTool.forecast_entry.
  specialize (IH (n + 3)).
  destruct (WeatherTool.map_days rt temperature (n + 3) ds) as [es n2].
  cbn in *. now rewrite IH.
Qed.

Lemma generateWeatherData_fields (n : nat) (now_ loc : string) (u : JsVal) :
  let out := (WeatherTool.generateWeatherData rt n now_ loc u).1 in
  WeatherTool.location out = loc
  /\ WeatherTool.units out = (if strict_eq_str u "celsius" then "Celsius" else "Fahrenheit")
  /\ map WeatherTool.day (WeatherTool.forecast out) = WeatherTool.days.
Proof.
  unfold WeatherTool.generateWeatherData.
  match goal with |- context [WeatherTool.map_days rt ?t ?m ?ds] =>
    pose proof (map_days_day t ds m) as Hd;
    destruct (WeatherTool.map_days rt t m ds) as [es n2] end.
  cbn in *. auto.
Qed.

Lemma trim_nonempty (s : string) : String.length (trim s) <> 0 -> s <> "".
Proof. intros H ->. apply H. reflexivity. Qed.

End WeatherFacts.

(** C10. When the location is a string that is not empty after trimming
    and the units are absent, celsius or fahrenheit, [getWeather] returns
    an output with the location of the input, with units Celsius (absent
    or celsius) or Fahrenheit, and with a forecast of seven entries for
    Monday to Sunday in this order. *)
Theorem getWeather_valid (rt : Runtime) (n : nat) (now_ : string) (o : Args) (loc : string) :
  o !! "location" = Some (JStr loc) ->
  String.length (trim loc) <> 0 ->
  o !! "units" = None \/ o !! "units" = Some (JStr "celsius")
    \/ o !! "units" = Some (JStr "fahrenheit") ->
  exists out n',
    WeatherTool.getWeather rt n now_ (Some o) = (Ok out, n')
    /\ WeatherTool.location out = loc
    /\ (o !! "units" = None \/ o !! "units" = Some (JStr "celsius")
        -> WeatherTool.units out = "Celsius")
    /\ (o !! "units" = Some (JStr "fahrenheit") -> WeatherTool.units out = "Fahrenheit")
    /\ length (WeatherTool.forecast out) = 7
    /\ map WeatherTool.day (WeatherTool.forecast out)
       = ["Monday"; "Tuesday"; "Wednesday"; "Thursday"; "Friday"; "Saturday"; "Sunday"].
Proof.
  intros Hloc Htrim Hu.
  pose proof (trim_nonempty _ Htrim) as Hne.
  assert (Hvalid : WeatherTool.validateInput (Some o) = Ok ()).
  { unfold WeatherTool.validateInput, prop. rewrite Hloc. cbn.
    apply String.eqb_neq in Hne. rewrite Hne. cbn.
    apply Nat.eqb_neq in Htrim. unfold trim in Htrim. rewrite Htrim.
    destruct Hu as [-> | [-> | ->]]; reflexivity. }
  unfold WeatherTool.getWeather. rewrite Hvalid.
  change (default ∅ (Some o)) with o. cbv beta iota.
  set (u := if truthy (prop o "units") then prop o "units" else JStr "celsius").
  pose proof (generateWeatherData_fields rt n now_ (str_of (prop o "location")) u)
    as (Hl & Hunits & Hdays).
  destruct (WeatherTool.generateWeatherData rt n now_ (str_of (prop o "location")) u)
    as [out n'].
  cbn in Hl, Hunits, Hdays. exists out, n'. split; [reflexivity|].
  split. { rewrite Hl. unfold prop. now rewrite Hloc. }
  split. { rewrite Hunits. subst u. unfold prop. intros [-> | ->]; reflexivity. }
  split. { rewrite Hunits. subst u. unfold prop. intros ->. reflexivity. }
  split; [|exact Hdays].
  rewrite <- (length_map WeatherTool.day), Hdays. reflexivity.
Qed.

Lemma getWeather_valid_witness :
  exists out n',
    WeatherTool.getWeather sample_rt 0 "2026-01-01T00:00:00.000Z"
      (Some {[ "location" := JStr " Paris "; "units" := JStr "fahrenheit" ]}) = (Ok out, n')
    /\ WeatherTool.location out = " Paris "
    /\ (({[ "location" := JStr " Paris "; "units" := JStr "fahrenheit" ]} : Args) !! "units" = None
        \/ ({[ "location" := JStr " Paris "; "units" := JStr "fahrenheit" ]} : Args) !! "units"
           = Some (JStr "celsius")
        -> WeatherTool.units out = "Celsius")
    /\ (({[ "location" := JStr " Paris "; "units" := JStr "fahrenheit" ]} : Args) !! "units"
        = Some (JStr "fahrenheit") -> WeatherTool.units out = "Fahrenheit")
    /\ length (WeatherTool.forecast out) = 7
    /\ map WeatherTool.day (WeatherTool.forecast out)
       = ["Monday"; "Tuesday"; "Wednesday"; "Thursday"; "Friday"; "Saturday"; "Sunday"].
Proof.
  apply (getWeather_valid sample_rt 0 "2026-01-01T00:00:00.000Z"
           {[ "location" := JStr " Paris "; "units" := JStr "fahrenheit" ]} " Paris ").
  - reflexivity.
  - vm_compute. discriminate.
  - right. right. reflexivity.
Defined.

(** ** The file tool: arguments and validation *)

Lemma prop_file_args (op p : string) (content : option string) :
  prop (file_args op p content) "operation" = JStr op
  /\ prop (file_args op p content) "path" = JStr p
  /\ prop (file_args op p content) "content"
     = match content with Some c => JStr c | None => JUndefined end.
Proof. destruct content; repeat split; reflexivity. Qed.

Section FileOpsFacts.

Variable cwd : string.
Variable tool : FileOpsTool.t.

(** The path check accepts exactly on a string prefix. *)
Lemma validatePath_Ok (p : string) :
  FileOpsTool.validatePath cwd tool p = Ok (Path.resolve cwd p)
  <-> exists dir, dir ∈ FileOpsTool.allowedDirectories tool
               /\ String.prefix (Path.resolve cwd dir) (Path.resolve cwd p) = true.
Proof.
  unfold FileOpsTool.validatePath.
  destruct (existsb _ _) eqn:E; cbn.
  - split; [intros _|done].
    apply existsb_exists in E as (dir & Hin & Hpre).
    exists dir. now rewrite list_elem_of_In.
  - split; [discriminate|]. intros (dir & Hin & Hpre).
    assert (existsb (fun dir => String.prefix (Path.resolve cwd dir) (Path.resolve cwd p))
              (FileOpsTool.allowedDirectories tool) = true) as E'.
    { apply existsb_exists. exists dir. now rewrite <- list_elem_of_In. }
    congruence.
Qed.

Lemma validatePath_cases (p : string) :
  FileOpsTool.validatePath cwd tool p = Ok (Path.resolve cwd p)
  \/ FileOpsTool.validatePath cwd tool p
     = Throw (Error ("Access denied. Path must be within allowed directories: "
                     +:+ join ", " (FileOpsTool.allowedDirectories tool))).
Proof. unfold FileOpsTool.validatePath. destruct (existsb _ _); cbn; auto. Qed.

(** An input with a known operation and a path that is a string passes
    the input check unless the path is empty. *)
Lemma validateInput_file_args (op p : string) (content : option string) :
  op ∈ FileOpsTool.validOperations -> p <> "" ->
  (op = "write" -> content <> None) ->
  FileOpsTool.validateInput (Some (file_args op p content)) = Ok ().
Proof.
  intros Hop Hp Hc. unfold FileOpsTool.validateInput.
  destruct (prop_file_args op p content) as (-> & -> & ->).
  apply String.eqb_neq in Hp. cbn. rewrite Hp. cbn.
  unfold FileOpsTool.validOperations in Hop.
  rewrite !elem_of_cons, elem_of_nil in Hop.
  destruct Hop as [-> | [-> | [-> | [-> | [-> | []]]]]]; cbn; try reflexivity.
  destruct content; [reflexivity|]. now specialize (Hc eq_refl).
Qed.

End FileOpsFacts.

(** C5. The path check accepts a path exactly when the resolved form of
    some allowed directory is a prefix, as a string, of the resolved form
    of the path.  So, with the default directories and whatever the
    working directory, it accepts [/tmpfile.txt], which is not within
    [/tmp]; in a process started in [/home/user] that path is within no
    allowed directory and a read of it returns the content of the file. *)
Theorem validatePath_string_prefix :
  (forall cwd tool p,
     (exists r, FileOpsTool.validatePath cwd tool p = Ok r)
     <-> (exists dir, dir ∈ FileOpsTool.allowedDirectories tool
                   /\ String.prefix (Path.resolve cwd dir) (Path.resolve cwd p) = true))
  /\ (forall cwd,
        FileOpsTool.validatePath cwd (FileOpsTool.new cwd None) "/tmpfile.txt"
        = Ok "/tmpfile.txt"
        /\ Path.within cwd "/tmp" "/tmpfile.txt" = false)
  /\ forallb (fun dir => negb (Path.within "/home/user" dir "/tmpfile.txt"))
       (FileOpsTool.allowedDirectories (FileOpsTool.new "/home/user" None)) = true
  /\ FileOpsTool.performOperation "/home/user" (FileOpsTool.new "/home/user" None)
       {[ ["tmpfile.txt"] := Fs.File "outside" ]}
       (Some (file_args "read" "/tmpfile.txt" None))
     = ({[ ["tmpfile.txt"] := Fs.File "outside" ]},
        Ok {| FileOpsTool.success := true; FileOpsTool.operation := "read";
              FileOpsTool.path := "/tmpfile.txt";
              FileOpsTool.data := Some (inl "outside");
              FileOpsTool.message := Some "File read successfully" |}).
Proof.
  split.
  { intros cwd tool p. rewrite <- validatePath_Ok. split; [|eauto].
    intros [r Hr]. destruct (validatePath_cases cwd tool p) as [H|H]; [done|].
    rewrite H in Hr. discriminate. }
  split; [intros cwd; split; reflexivity|].
  split; vm_compute; reflexivity.
Qed.

(** ** The file tool: the operations after validation *)

Section FileOpsRun.

Variable cwd : string.
Variable tool : FileOpsTool.t.

Let result0 (op p' : string) : FileOpsTool.FileOpsOutput :=
  {| FileOpsTool.success := false; FileOpsTool.operation := op; FileOpsTool.path := p';
     FileOpsTool.data := None; FileOpsTool.message := None |}.

Let succeeded (op p' : string) (d : option (string + list string)) (m : string)
  : FileOpsTool.FileOpsOutput :=
  {| FileOpsTool.success := true; FileOpsTool.operation := op; FileOpsTool.path := p';
     FileOpsTool.data := d; FileOpsTool.message := Some m |}.

Ltac run_validated op Hp Hv :=
  unfold FileOpsTool.performOperation;
  rewrite validateInput_file_args;
    [|unfold FileOpsTool.validOperations; set_solver|exact Hp|try discriminate];
  change (default ∅ (Some ?o)) with o;
  match goal with |- context [file_args ?o ?q ?c] =>
    destruct (prop_file_args o q c) as (-> & -> & ->) end;
  cbn [str_of]; rewrite Hv; reflexivity.

Lemma performOperation_read (fs : Fs.tree) (p p' : string) :
  p <> "" -> FileOpsTool.validatePath cwd tool p = Ok p' ->
  FileOpsTool.performOperation cwd tool fs (Some (file_args "read" p None))
  = (fs, Ok match FileOpsTool.readFile fs p' with
            | Ok content => succeeded "read" p' (Some (inl content)) "File read successfully"
            | Throw e => FileOpsTool.caught (result0 "read" p') e
            end).
Proof.
  intros Hp Hv. transitivity
    (match FileOpsTool.readFile fs p' with
     | Ok content => (fs, Ok (succeeded "read" p' (Some (inl content)) "File read successfully"))
     | Throw e => (fs, Ok (FileOpsTool.caught (result0 "read" p') e))
     end); [run_validated "read" Hp Hv|].
  now destruct (FileOpsTool.readFile fs p').
Qed.

Lemma performOperation_write (fs : Fs.tree) (p p' c : string) :
  p <> "" -> FileOpsTool.validatePath cwd tool p = Ok p' ->
  FileOpsTool.performOperation cwd tool fs (Some (file_args "write" p (Some c)))
  = match FileOpsTool.writeFile fs p' (JStr c) with
    | (fs1, Ok _) => (fs1, Ok (succeeded "write" p' None "File written successfully"))
    | (fs1, Throw e) => (fs1, Ok (FileOpsTool.caught (result0 "write" p') e))
    end.
Proof. intros Hp Hv. run_validated "write" Hp Hv. Qed.

Lemma performOperation_delete (fs : Fs.tree) (p p' : string) :
  p <> "" -> FileOpsTool.validatePath cwd tool p = Ok p' ->
  FileOpsTool.performOperation cwd tool fs (Some (file_args "delete" p None))
  = match FileOpsTool.deleteFile fs p' with
    | (fs1, Ok _) => (fs1, Ok (succeeded "delete" p' None "File deleted successfully"))
    | (fs1, Throw e) => (fs1, Ok (FileOpsTool.caught (result0 "delete" p') e))
    end.
Proof. intros Hp Hv. run_validated "delete" Hp Hv. Qed.

Lemma performOperation_exists (fs : Fs.tree) (p p' : string) :
  p <> "" -> FileOpsTool.validatePath cwd tool p = Ok p' ->
  FileOpsTool.performOperation cwd tool fs (Some (file_args "exists" p None))
  = (fs, Ok (let text := if FileOpsTool.fileExists fs p'
                         then "File exists" else "File does not exist" in
             succeeded "exists" p' (Some (inl text)) text)).
Proof. intros Hp Hv. run_validated "exists" Hp Hv. Qed.

Lemma performOperation_list (fs : Fs.tree) (p p' : string) :
  p <> "" -> FileOpsTool.validatePath cwd tool p = Ok p' ->
  FileOpsTool.performOperation cwd tool fs (Some (file_args "list" p None))
  = (fs, Ok match FileOpsTool.listDirectory fs p' with
            | Ok files =>
                {| FileOpsTool.success := true; FileOpsTool.operation := "list";
                   FileOpsTool.path := p'; FileOpsTool.data := Some (inr files);
                   FileOpsTool.message :=
                     Some (FileOpsTool.found_message (length files)) |}
            | Throw e =>
                {| FileOpsTool.success := false; FileOpsTool.operation := "list";
                   FileOpsTool.path := p'; FileOpsTool.data := None;
                   FileOpsTool.message := Some (exn_message e) |}
            end).
Proof.
  intros Hp Hv. unfold FileOpsTool.performOperation.
  rewrite validateInput_file_args;
    [|unfold FileOpsTool.validOperations; set_solver|exact Hp|discriminate].
  change (default ∅ (Some ?o)) with o.
  destruct (prop_file_args "list" p None) as (-> & -> & _).
  cbn [str_of]. rewrite Hv. cbn.
  now destruct (FileOpsTool.listDirectory fs p').
Qed.

(** A refused path: the operation throws before it touches a file. *)
Lemma performOperation_denied (fs : Fs.tree) (op p : string) (content : option string) e :
  op ∈ FileOpsTool.validOperations -> p <> "" -> (op = "write" -> content <> None) ->
  FileOpsTool.validatePath cwd tool p = Throw e ->
  FileOpsTool.performOperation cwd tool fs (Some (file_args op p content)) = (fs, Throw e).
Proof.
  intros Hop Hp Hc Hv. unfold FileOpsTool.performOperation.
  rewrite validateInput_file_args by done.
  change (default ∅ (Some ?o)) with o.
  destruct (prop_file_args op p content) as (_ & -> & _).
  cbn [str_of]. now rewrite Hv.
Qed.

(** The operation throws exactly when one of the two checks throws: what
    happens at the files afterwards is caught and goes into the result. *)
Lemma performOperation_throws (fs : Fs.tree) (input : option Args) fs' e :
  FileOpsTool.performOperation cwd tool fs input = (fs', Throw e) ->
  FileOpsTool.validateInput input = Throw e
  \/ (FileOpsTool.validateInput input = Ok ()
      /\ FileOpsTool.validatePath cwd tool
           (str_of (prop (default ∅ input) "path")) = Throw e).
Proof.
  unfold FileOpsTool.performOperation.
  destruct (FileOpsTool.validateInput input) as [e0|[]]; [intros [= _ <-]; auto|].
  destruct (FileOpsTool.validatePath _ _ _) as [e0|p']; [intros [= _ <-]; auto|].
  repeat match goal with
         | |- context [if ?b then _ else _] => destruct b
         | |- context [match ?x with (_, _) => _ end] => destruct x as [? [?|?]]
         | |- context [match ?x with Throw _ => _ | Ok _ => _ end] => destruct x
         end; discriminate.
Qed.

End FileOpsRun.

(** ** The three tools behind the dispatcher *)

Lemma with_files_same (w : World) : with_files w (files w) = w.
Proof. now destruct w. Qed.

Section Wrapping.

Variable rt : Runtime.
Variable this : MCPServer.t.

Lemma callTool_calculator (w : World) (args : option Args) :
  callTool rt this w "calculator" args
  = (w, match CalculatorTool.calculate (Math_pow rt) args with
        | Ok r => Success (PCalculator r)
        | Throw e =>
            Failure InvalidParams
              ("MCP error -32602: Calculator error: " +:+ exn_message e)
        end).
Proof.
  unfold callTool, callToolHandler, switch_name, handleCalculator. cbn.
  now destruct (CalculatorTool.calculate _ _).
Qed.

Lemma callTool_weather (w : World) (args : option Args) :
  callTool rt this w "weather" args
  = (with_draws w (WeatherTool.getWeather rt (draws w) (now w) args).2,
     match (WeatherTool.getWeather rt (draws w) (now w) args).1 with
     | Ok r => Success (PWeather r)
     | Throw e =>
         Failure InvalidParams ("MCP error -32602: Weather error: " +:+ exn_message e)
     end).
Proof.
  unfold callTool, callToolHandler, switch_name, handleWeather. cbn.
  now destruct (WeatherTool.getWeather _ _ _ _) as [[e|r] n].
Qed.

Lemma callTool_file_operations (w : World) (args : option Args) :
  callTool rt this w "file_operations" args
  = (with_files w
       (FileOpsTool.performOperation (process_cwd rt) (fileOpsTool this) (files w) args).1,
     match (FileOpsTool.performOperation (process_cwd rt) (fileOpsTool this)
              (files w) args).2 with
     | Ok r => Success (PFileOps r)
     | Throw e =>
         Failure InvalidParams
           ("MCP error -32602: File operations error: " +:+ exn_message e)
     end).
Proof.
  unfold callTool, callToolHandler, switch_name, handleFileOps. cbn.
  now destruct (FileOpsTool.performOperation _ _ _ _) as [fs [e|r]].
Qed.

End Wrapping.

(** A read of a path that has no allowed directory as a string prefix is
    refused with InvalidParams, whatever the files are. *)
Lemma read_without_prefix_denied (rt : Runtime) (this : MCPServer.t) (w : World) (p : string) :
  p <> "" ->
  (forall dir, dir ∈ FileOpsTool.allowedDirectories (fileOpsTool this) ->
     String.prefix (Path.resolve (process_cwd rt) dir) (Path.resolve (process_cwd rt) p)
     = false) ->
  callTool rt this w "file_operations" (Some (file_args "read" p None))
  = (w, Failure InvalidParams
          ("MCP error -32602: File operations error: "
           +:+ "Access denied. Path must be within allowed directories: "
           +:+ join ", " (FileOpsTool.allowedDirectories (fileOpsTool this)))).
Proof.
  intros Hp Hout. rewrite callTool_file_operations.
  destruct (validatePath_cases (process_cwd rt) (fileOpsTool this) p) as [H|H].
  - apply validatePath_Ok in H as (dir & Hin & Hpre). rewrite Hout in Hpre by done.
    discriminate.
  - assert (Hop : "read" ∈ FileOpsTool.validOperations) by (apply list_elem_of_here).
    rewrite (performOperation_denied _ _ (files w) "read" p None _ Hop Hp
               ltac:(discriminate) H).
    cbn. now rewrite with_files_same.
Qed.

(** C4. In a process started in [/home/user] with the default allowed
    directories, [/tmpfile.txt] is within neither [/tmp] nor
    [/home/user], and still a read of it is not refused: the file is
    looked for, reported missing when it is not there and returned when
    it is. *)
Theorem read_tmpfile_not_refused :
  forallb (fun dir => negb (Path.within (process_cwd sample_rt) dir "/tmpfile.txt"))
    (FileOpsTool.allowedDirectories (fileOpsTool sample_server)) = true
  /\ callTool sample_rt sample_server sample_world "file_operations"
       (Some (file_args "read" "/tmpfile.txt" None))
     = (sample_world,
        Success (PFileOps
          {| FileOpsTool.success := false; FileOpsTool.operation := "read";
             FileOpsTool.path := "/tmpfile.txt"; FileOpsTool.data := None;
             FileOpsTool.message := Some "File not found: /tmpfile.txt" |}))
  /\ (callTool sample_rt sample_server
        (with_files sample_world (<[ ["tmpfile.txt"] := Fs.File "outside" ]> sample_files))
        "file_operations" (Some (file_args "read" "/tmpfile.txt" None))).2
     = Success (PFileOps
          {| FileOpsTool.success := true; FileOpsTool.operation := "read";
             FileOpsTool.path := "/tmpfile.txt"; FileOpsTool.data := Some (inl "outside");
             FileOpsTool.message := Some "File read successfully" |}).
Proof. repeat split; vm_compute; reflexivity. Qed.

(** ** Faults at the files *)

Section Faults.

Variable cwd : string.
Variable tool : FileOpsTool.t.

(** A call of the file system that is rejected leaves the files as they
    are (a [mkdir] apart, which keeps what it made on the way). *)
Lemma unlink_fault (t t' : Fs.tree) (p : string) e :
  Fs.unlink t p = (t', inl e) -> t' = t.
Proof.
  unfold Fs.unlink. destruct (Fs.locate t p) as [e0|[c|]]; try discriminate;
    now intros [= <-].
Qed.

Lemma writeFile_fault (t t' : Fs.tree) (p : string) (data : JsVal) e :
  Fs.writeFile t p data = (t', inl e) -> t' = t.
Proof.
  unfold Fs.writeFile.
  repeat match goal with
         | |- context [match ?x with _ => _ end] => destruct x
         end; try discriminate; now intros [= <-].
Qed.

(** What the tool answers when the file system rejects the operation:
    a result, with [success] false and the report of the fault. *)
Lemma performOperation_fault (fs : Fs.tree) (op p p' c : string) e :
  op ∈ ["read"; "write"; "list"; "delete"] -> p <> "" ->
  FileOpsTool.validatePath cwd tool p = Ok p' ->
  io_fault op fs p' c = Some e ->
  FileOpsTool.performOperation cwd tool fs
    (Some (file_args op p (if String.eqb op "write" then Some c else None)))
  = (if String.eqb op "write" then (Fs.mkdir_recursive fs (Path.dirname p')).1 else fs,
     Ok (failed_output op p' (fault_report op p' e))).
Proof.
  intros Hop Hp Hv. rewrite !elem_of_cons, elem_of_nil in Hop.
  destruct Hop as [-> | [-> | [-> | [-> | []]]]]; unfold io_fault, fault_report;
    cbn -[file_args FileOpsTool.performOperation Fs.mkdir_recursive Fs.writeFile
          Fs.readFile Fs.readdir Fs.unlink].
  - rewrite (performOperation_read _ _ _ _ _ Hp Hv). unfold FileOpsTool.readFile.
    destruct (Fs.readFile fs p') as [e'|content]; [|discriminate]. intros [= ->].
    now destruct (Fs.is_ENOENT (Fs.code e)).
  - rewrite (performOperation_write _ _ _ _ _ _ Hp Hv). unfold FileOpsTool.writeFile.
    destruct (Fs.mkdir_recursive fs (Path.dirname p')) as [fs1 [e'|[]]]; [now intros [= ->]|].
    destruct (Fs.writeFile fs1 p' (JStr c)) as [fs2 [e'|[]]] eqn:W; [|discriminate].
    intros [= ->]. now rewrite (writeFile_fault _ _ _ _ _ W).
  - rewrite (performOperation_list _ _ _ _ _ Hp Hv). unfold FileOpsTool.listDirectory.
    destruct (Fs.readdir fs p') as [e'|entries]; [|discriminate]. intros [= ->].
    now destruct (Fs.is_ENOENT (Fs.code e)).
  - rewrite (performOperation_delete _ _ _ _ _ Hp Hv). unfold FileOpsTool.deleteFile.
    destruct (Fs.unlink fs p') as [fs1 [e'|[]]] eqn:U; [|discriminate]. intros [= ->].
    rewrite (unlink_fault _ _ _ _ U). now destruct (Fs.is_ENOENT (Fs.code e)).
Qed.

(** A path at which the system finds no entry makes a read and a delete
    fail with ENOENT. *)
Lemma io_fault_missing (fs : Fs.tree) (op p' c : string) :
  op = "read" \/ op = "delete" ->
  Fs.locate fs p' = inl Fs.ENOENT ->
  exists e, io_fault op fs p' c = Some e /\ Fs.code e = Fs.ENOENT.
Proof.
  intros [-> | ->] H; unfold io_fault, Fs.readFile, Fs.unlink; rewrite H; cbn; eauto.
Qed.

End Faults.

(** ** Missing files *)

(** The report of a missing file differs from the report of any other
    fault of a read or a delete. *)
Lemma not_found_distinct (op x y : string) :
  "File not found: " +:+ x <> "Failed to " +:+ op +:+ " file: " +:+ y.
Proof. cbn. discriminate. Qed.

(** C3, as the code has it. A read or a delete of an accepted path at
    which there is no file is answered with a response, not with a
    failure of the dispatcher: its payload has [success] false and the
    message [File not found:] with the resolved path, and the files stay
    as they are.  Every other fault of the read or the delete is answered
    in the same way but under [Failed to read file:] or
    [Failed to delete file:], followed for a fault of a system call by
    the message of the fault; no such message is a [File not found:]
    message. *)
Theorem missing_file_reported (rt : Runtime) (this : MCPServer.t) (w : World)
    (op p : string) :
  op = "read" \/ op = "delete" ->
  p <> "" ->
  FileOpsTool.validatePath (process_cwd rt) (fileOpsTool this) p
  = Ok (Path.resolve (process_cwd rt) p) ->
  (Fs.locate (files w) (Path.resolve (process_cwd rt) p) = inl Fs.ENOENT ->
   callTool rt this w "file_operations" (Some (file_args op p None))
   = (w, Success (PFileOps
        {| FileOpsTool.success := false; FileOpsTool.operation := op;
           FileOpsTool.path := Path.resolve (process_cwd rt) p;
           FileOpsTool.data := None;
           FileOpsTool.message :=
             Some ("File not found: " +:+ Path.resolve (process_cwd rt) p) |})))
  /\ (forall e,
        io_fault op (files w) (Path.resolve (process_cwd rt) p) "" = Some e ->
        Fs.is_ENOENT (Fs.code e) = false ->
        exists text,
          callTool rt this w "file_operations" (Some (file_args op p None))
          = (w, Success (PFileOps
               {| FileOpsTool.success := false; FileOpsTool.operation := op;
                  FileOpsTool.path := Path.resolve (process_cwd rt) p;
                  FileOpsTool.data := None;
                  FileOpsTool.message :=
                    Some ("Failed to " +:+ op +:+ " file: " +:+ text) |}))
          /\ (Fs.is_errno (Fs.code e) = true -> text = Fs.fault_message e))
  /\ forall x y, "File not found: " +:+ x <> "Failed to " +:+ op +:+ " file: " +:+ y.
Proof.
  intros Hop Hp Hv.
  assert (Hin : op ∈ ["read"; "write"; "list"; "delete"]).
  { rewrite !elem_of_cons. destruct Hop as [-> | ->]; auto. }
  assert (Hnw : String.eqb op "write" = false) by (now destruct Hop as [-> | ->]).
  assert (Hnl : String.eqb op "list" = false) by (now destruct Hop as [-> | ->]).
  assert (Hcall : forall e,
            io_fault op (files w) (Path.resolve (process_cwd rt) p) "" = Some e ->
            callTool rt this w "file_operations" (Some (file_args op p None))
            = (w, Success (PFileOps (failed_output op (Path.resolve (process_cwd rt) p)
                                       (fault_report op (Path.resolve (process_cwd rt) p) e))))).
  { intros e He. rewrite callTool_file_operations.
    pose proof (performOperation_fault _ _ _ _ _ _ _ _ Hin Hp Hv He) as H.
    rewrite Hnw in H. rewrite H. cbn. now rewrite with_files_same. }
  split; [|split].
  - intros Hloc.
    destruct (io_fault_missing (files w) op _ "" Hop Hloc) as (e & He & Hcode).
    rewrite (Hcall e He). unfold fault_report, failed_output.
    now rewrite Hnw, Hnl, Hcode.
  - intros e He Hne. exists (Fs.fault_message e). split; [|reflexivity].
    rewrite (Hcall e He). unfold fault_report, failed_output.
    now rewrite Hnw, Hnl, Hne.
  - intros x y. apply not_found_distinct.
Qed.

Lemma missing_file_reported_witness :
  callTool sample_rt sample_server sample_world "file_operations"
    (Some (file_args "delete" "/tmp/does-not-exist.txt" None))
  = (sample_world, Success (PFileOps
       {| FileOpsTool.success := false; FileOpsTool.operation := "delete";
          FileOpsTool.path := Path.resolve (process_cwd sample_rt) "/tmp/does-not-exist.txt";
          FileOpsTool.data := None;
          FileOpsTool.message :=
            Some ("File not found: "
                  +:+ Path.resolve (process_cwd sample_rt) "/tmp/does-not-exist.txt") |}))
  /\ (exists text,
       callTool sample_rt sample_server sample_world "file_operations"
         (Some (file_args "read" "/tmp" None))
       = (sample_world, Success (PFileOps
            {| FileOpsTool.success := false; FileOpsTool.operation := "read";
               FileOpsTool.path := Path.resolve (process_cwd sample_rt) "/tmp";
               FileOpsTool.data := None;
               FileOpsTool.message := Some ("Failed to " +:+ "read" +:+ " file: " +:+ text) |}))
       /\ (Fs.is_errno Fs.EISDIR = true
           -> text = "EISDIR: illegal operation on a directory, read"))
  /\ exists text,
       callTool sample_rt sample_server sample_world "file_operations"
         (Some (file_args "read" sample_nul_path None))
       = (sample_world, Success (PFileOps
            {| FileOpsTool.success := false; FileOpsTool.operation := "read";
               FileOpsTool.path := Path.resolve (process_cwd sample_rt) sample_nul_path;
               FileOpsTool.data := None;
               FileOpsTool.message := Some ("Failed to " +:+ "read" +:+ " file: " +:+ text) |}))
       /\ (Fs.is_errno Fs.ERR_INVALID_ARG_VALUE = true
           -> text = Fs.fault_message
                       (Fs.fault Fs.ERR_INVALID_ARG_VALUE "open" sample_nul_path)).
Proof.
  split; [|split].
  - apply (missing_file_reported sample_rt sample_server sample_world "delete"
             "/tmp/does-not-exist.txt").
    + right. reflexivity.
    + discriminate.
    + vm_compute. reflexivity.
    + vm_compute. reflexivity.
  - apply (proj1 (proj2 (missing_file_reported sample_rt sample_server sample_world
                           "read" "/tmp" (or_introl eq_refl) ltac:(discriminate) eq_refl))
             (Fs.fault_bare Fs.EISDIR ", read")).
    + vm_compute. reflexivity.
    + reflexivity.
  - apply (proj1 (proj2 (missing_file_reported sample_rt sample_server sample_world
                           "read" sample_nul_path (or_introl eq_refl) ltac:(discriminate)
                           eq_refl))
             (Fs.fault Fs.ERR_INVALID_ARG_VALUE "open" sample_nul_path)).
    + vm_compute. reflexivity.
    + reflexivity.
Defined.

(** The claim as the specification words it fails: the read of a missing
    file under [/tmp] is answered with a success envelope, and with no
    failure of any kind. *)
Lemma missing_file_is_not_a_failure :
  (callTool sample_rt sample_server sample_world "file_operations"
     (Some (file_args "read" "/tmp/does-not-exist.txt" None))).2
  = Success (PFileOps
      {| FileOpsTool.success := false; FileOpsTool.operation := "read";
         FileOpsTool.path := "/tmp/does-not-exist.txt"; FileOpsTool.data := None;
         FileOpsTool.message := Some "File not found: /tmp/does-not-exist.txt" |})
  /\ ~ exists kind m,
        (callTool sample_rt sample_server sample_world "file_operations"
           (Some (file_args "read" "/tmp/does-not-exist.txt" None))).2 = Failure kind m.
Proof.
  split; [vm_compute; reflexivity|]. intros (kind & m & H). vm_compute in H. discriminate.
Qed.

(** ** Failures of a handler *)

(** The file operation throws exactly when the input check or the path
    check throws. *)
Lemma performOperation_is_Ok (cwd : string) (tool : FileOpsTool.t) (fs : Fs.tree)
    (input : option Args) :
  is_Ok (FileOpsTool.performOperation cwd tool fs input).2
  = is_Ok (FileOpsTool.validateInput input)
    && is_Ok (FileOpsTool.validatePath cwd tool (str_of (prop (default ∅ input) "path"))).
Proof.
  destruct (FileOpsTool.performOperation cwd tool fs input) as [fs' [e|r]] eqn:H.
  - apply performOperation_throws in H as [-> | [-> ->]]; reflexivity.
  - revert H. unfold FileOpsTool.performOperation.
    destruct (FileOpsTool.validateInput input) as [e0|[]]; [discriminate|].
    destruct (FileOpsTool.validatePath _ _ _) as [e0|p']; [discriminate|reflexivity].
Qed.

(** C2, as the code has it. No call is answered with InternalError.
    Whatever a tool throws, an unforeseen exception of the engine
    included, its handler wraps as InvalidParams under the tool's prefix;
    the file tool throws exactly when one of its two checks throws.  A
    fault at the files comes after both checks and is caught by the tool
    itself: for each of read, write, list and delete the answer is a
    response whose payload has [success] false, no data and a message,
    which for a fault of a system call is the report of that fault.
    Every call returns an envelope. *)
Theorem callTool_wraps_failures (rt : Runtime) (this : MCPServer.t) (w : World)
    (name_ : string) (args : option Args) :
  (forall m, (callTool rt this w name_ args).2 <> Failure InternalError m)
  /\ ((exists p, (callTool rt this w name_ args).2 = Success p)
      \/ exists m, (callTool rt this w name_ args).2
                   = Failure (if registered name_ then InvalidParams else MethodNotFound) m)
  /\ callTool rt this w "calculator" args
     = (w, match CalculatorTool.calculate (Math_pow rt) args with
           | Ok r => Success (PCalculator r)
           | Throw e =>
               Failure InvalidParams
                 ("MCP error -32602: Calculator error: " +:+ exn_message e)
           end)
  /\ (callTool rt this w "weather" args).2
     = match (WeatherTool.getWeather rt (draws w) (now w) args).1 with
       | Ok r => Success (PWeather r)
       | Throw e =>
           Failure InvalidParams ("MCP error -32602: Weather error: " +:+ exn_message e)
       end
  /\ (callTool rt this w "file_operations" args).2
     = match (FileOpsTool.performOperation (process_cwd rt) (fileOpsTool this)
                (files w) args).2 with
       | Ok r => Success (PFileOps r)
       | Throw e =>
           Failure InvalidParams
             ("MCP error -32602: File operations error: " +:+ exn_message e)
       end
  /\ is_Ok (FileOpsTool.performOperation (process_cwd rt) (fileOpsTool this)
              (files w) args).2
     = is_Ok (FileOpsTool.validateInput args)
       && is_Ok (FileOpsTool.validatePath (process_cwd rt) (fileOpsTool this)
                   (str_of (prop (default ∅ args) "path")))
  /\ (forall op p c e,
        op ∈ ["read"; "write"; "list"; "delete"] ->
        p <> "" ->
        FileOpsTool.validatePath (process_cwd rt) (fileOpsTool this) p
        = Ok (Path.resolve (process_cwd rt) p) ->
        io_fault op (files w) (Path.resolve (process_cwd rt) p) c = Some e ->
        exists m,
          (callTool rt this w "file_operations"
             (Some (file_args op p (if String.eqb op "write" then Some c else None)))).2
          = Success (PFileOps
              {| FileOpsTool.success := false; FileOpsTool.operation := op;
                 FileOpsTool.path := Path.resolve (process_cwd rt) p;
                 FileOpsTool.data := None;
                 FileOpsTool.message := Some m |})
          /\ (Fs.is_errno (Fs.code e) = true
              -> m = fault_report op (Path.resolve (process_cwd rt) p) e)).
Proof.
  assert (Hcases : (exists p, (callTool rt this w name_ args).2 = Success p)
      \/ exists m, (callTool rt this w name_ args).2
                   = Failure (if registered name_ then InvalidParams else MethodNotFound) m).
  { rewrite callTool_switch.
    destruct (switch_name rt this w name_ args) as [w' [e|p]] eqn:H; [|left; eauto].
    right. destruct (registered name_) eqn:Hreg.
    - destruct (switch_name_registered_throws _ _ _ _ _ _ _ Hreg H) as [m ->]. cbn. eauto.
    - rewrite switch_name_unregistered in H by done. injection H as _ <-. cbn. eauto. }
  split.
  { intros m. destruct Hcases as [[p ->] | [m' ->]]; [discriminate|].
    destruct (registered name_); discriminate. }
  split; [exact Hcases|].
  split; [apply callTool_calculator|].
  split; [now rewrite callTool_weather|].
  split; [now rewrite callTool_file_operations|].
  split; [apply performOperation_is_Ok|].
  intros op p c e Hop Hp Hv He.
  exists (fault_report op (Path.resolve (process_cwd rt) p) e). split; [|reflexivity].
  rewrite callTool_file_operations.
  now rewrite (performOperation_fault _ _ _ _ _ _ _ _ Hop Hp Hv He).
Qed.

Lemma callTool_wraps_failures_witness :
  exists m,
    (callTool sample_rt sample_server sample_world "file_operations"
       (Some (file_args "write" "/tmp/notes.txt/sub/f.txt" (Some "x")))).2
    = Success (PFileOps
        {| FileOpsTool.success := false; FileOpsTool.operation := "write";
           FileOpsTool.path := Path.resolve (process_cwd sample_rt) "/tmp/notes.txt/sub/f.txt";
           FileOpsTool.data := None;
           FileOpsTool.message := Some m |})
    /\ (Fs.is_errno Fs.ENOTDIR = true
        -> m = "Failed to write file: ENOTDIR: not a directory, mkdir '/tmp/notes.txt/sub'").
Proof.
  apply (proj2 (proj2 (proj2 (proj2 (proj2 (proj2
           (callTool_wraps_failures sample_rt sample_server sample_world
              "file_operations" None))))))
           "write" "/tmp/notes.txt/sub/f.txt" "x"
           (Fs.fault Fs.ENOTDIR "mkdir" "/tmp/notes.txt/sub")).
  - rewrite !elem_of_cons. auto.
  - discriminate.
  - vm_compute. reflexivity.
  - vm_compute. reflexivity.
Defined.

(** The claim as the specification words it fails twice.  A call of the
    calculator without arguments makes the engine throw a TypeError, which
    is no validation failure of the tool, and the answer is InvalidParams;
    a read of the directory [/tmp] fails at the files with EISDIR, and the
    answer is a success envelope. *)
Lemma unexpected_failures_not_internal :
  callTool sample_rt sample_server sample_world "calculator" None
  = (sample_world,
     Failure InvalidParams
       ("MCP error -32602: Calculator error: "
        +:+ "Cannot read properties of undefined (reading 'operation')"))
  /\ callTool sample_rt sample_server sample_world "file_operations"
       (Some (file_args "read" "/tmp" None))
     = (sample_world,
        Success (PFileOps
          {| FileOpsTool.success := false; FileOpsTool.operation := "read";
             FileOpsTool.path := "/tmp"; FileOpsTool.data := None;
             FileOpsTool.message :=
               Some "Failed to read file: EISDIR: illegal operation on a directory, read" |})).
Proof. split; vm_compute; reflexivity. Qed.

(** What the system refuses on the path itself is reported like any
    other fault: a write to a path with a null byte, or to a name of 300
    bytes, is answered with [success] false and changes no file. *)
Lemma write_to_refused_path :
  (exists m,
     FileOpsTool.performOperation "/home/user" sample_tool sample_files
       (Some (file_args "write" sample_nul_path (Some "x")))
     = (sample_files, Ok (failed_output "write" sample_nul_path m))
     /\ String.prefix "Failed to write file: " m = true)
  /\ FileOpsTool.performOperation "/home/user" sample_tool sample_files
       (Some (file_args "write" sample_long_path (Some "x")))
     = (sample_files,
        Ok (failed_output "write" sample_long_path
              ("Failed to write file: ENAMETOOLONG: name too long, open '"
               +:+ sample_long_path +:+ "'"))).
Proof.
  split; [eexists; split|]; vm_compute; reflexivity.
Qed.

(** ** The file tree: walking, writing and unlinking *)

Section Walk.

Implicit Types (t : Fs.tree) (k here rest : list string) (n : Fs.node).

Lemma node_at_nonempty t k : k <> [] -> Fs.node_at t k = t !! k.
Proof. now destruct k. Qed.

Lemma node_at_insert_ne t k k' n :
  k <> k' -> Fs.node_at (<[k := n]> t) k' = Fs.node_at t k'.
Proof.
  intros Hne. destruct k' as [|s k']; [reflexivity|].
  cbn. now rewrite lookup_insert_ne.
Qed.

Lemma node_at_delete_ne t k k' :
  k <> k' -> Fs.node_at (delete k t) k' = Fs.node_at t k'.
Proof.
  intros Hne. destruct k' as [|s k']; [reflexivity|].
  cbn. now rewrite lookup_delete_ne.
Qed.

(** The walk to the last segment is the walk to its directory and one
    more step. *)
Lemma walk_snoc t here rest s :
  Fs.walk t here (rest ++ [s])
  = match Fs.walk t here rest with
    | inr Fs.Dir =>
        if Fs.name_too_long s then inl Fs.ENAMETOOLONG
        else match Fs.node_at t (here ++ rest ++ [s]) with
             | Some n => inr n
             | None => inl Fs.ENOENT
             end
    | inr (Fs.File _) => inl Fs.ENOTDIR
    | inl e => inl e
    end.
Proof.
  revert here. induction rest as [|a rest IH]; intros here; cbn.
  - now destruct (Fs.node_at t here) as [[c|]|].
  - destruct (Fs.node_at t here) as [[c|]|]; try reflexivity.
    destruct (Fs.name_too_long a); [reflexivity|].
    rewrite IH. now rewrite <- app_assoc.
Qed.

(** A walk does not see an entry that lies deeper than it goes. *)
Lemma walk_insert_deeper t k n here rest :
  length here + length rest < length k ->
  Fs.walk (<[k := n]> t) here rest = Fs.walk t here rest.
Proof.
  revert here. induction rest as [|a rest IH]; intros here Hlen; cbn in *.
  - rewrite node_at_insert_ne; [reflexivity|]. intros ->. lia.
  - rewrite node_at_insert_ne by (intros ->; lia).
    destruct (Fs.node_at t here) as [[c|]|]; try reflexivity.
    destruct (Fs.name_too_long a); [reflexivity|].
    apply IH. rewrite length_app. cbn. lia.
Qed.

Lemma walk_delete_deeper t k here rest :
  length here + length rest < length k ->
  Fs.walk (delete k t) here rest = Fs.walk t here rest.
Proof.
  revert here. induction rest as [|a rest IH]; intros here Hlen; cbn in *.
  - rewrite node_at_delete_ne; [reflexivity|]. intros ->. lia.
  - rewrite node_at_delete_ne by (intros ->; lia).
    destruct (Fs.node_at t here) as [[c|]|]; try reflexivity.
    destruct (Fs.name_too_long a); [reflexivity|].
    apply IH. rewrite length_app. cbn. lia.
Qed.

Lemma stat_root t : Fs.stat t [] = inr Fs.Dir.
Proof. reflexivity. Qed.

Lemma removelast_shorter k : k <> [] -> length (removelast k) < length k.
Proof.
  intros Hk. rewrite (app_removelast_last "" Hk) at 2. rewrite length_app. cbn. lia.
Qed.

(** A walk that ends in a file went through its directory. *)
Lemma stat_file_parent t k c :
  Fs.stat t k = inr (Fs.File c) ->
  k <> [] /\ Fs.stat t (removelast k) = inr Fs.Dir /\ t !! k = Some (Fs.File c)
  /\ Fs.name_too_long (List.last k "") = false.
Proof.
  intros H. assert (Hk : k <> []) by (intros ->; discriminate).
  split; [done|]. revert H. rewrite (app_removelast_last "" Hk) at 1 3.
  unfold Fs.stat. rewrite walk_snoc. cbn [app].
  destruct (Fs.walk t [] (removelast k)) as [e|[c0|]]; try discriminate.
  destruct (Fs.name_too_long _); [discriminate|].
  rewrite node_at_nonempty by (now destruct (removelast k)).
  destruct (t !! _) as [n|]; [|discriminate]. now intros [= ->].
Qed.

Lemma utf8_decode_unit (c : Ascii.ascii) (rest : string) :
  Fs.utf8_decode (Fs.utf8_encode_unit c +:+ rest) = String c <$> Fs.utf8_decode rest.
Proof.
  destruct c as [b0 b1 b2 b3 b4 b5 b6 b7].
  destruct b0, b1, b2, b3, b4, b5, b6, b7; reflexivity.
Qed.

(** Decoding undoes encoding: the text of the bytes written for a string
    is that string. *)
Lemma utf8_text_encode (s : string) : Fs.utf8_text (Fs.utf8_encode s) = s.
Proof.
  unfold Fs.utf8_text.
  assert (H : Fs.utf8_decode (Fs.utf8_encode s) = Some s); [|now rewrite H].
  induction s as [|c s IH]; [reflexivity|].
  cbn [Fs.utf8_encode]. now rewrite utf8_decode_unit, IH.
Qed.

(** What a write that went through did: the path is one the system
    takes, its directory was there, and the file is entered with the
    content. *)
Lemma writeFile_done t t' p c :
  Fs.writeFile t p (JStr c) = (t', inr ()) ->
  Fs.check_path p = None
  /\ Fs.key p <> []
  /\ Fs.stat t (removelast (Fs.key p)) = inr Fs.Dir
  /\ Fs.name_too_long (List.last (Fs.key p) "") = false
  /\ t' = <[Fs.key p := Fs.File c]> t.
Proof.
  unfold Fs.writeFile. destruct (Fs.check_path p); [discriminate|].
  set (k := Fs.key p).
  destruct k as [|s0 k0] eqn:Hk; [discriminate|]. rewrite <- Hk.
  assert (Hne : k <> []) by (rewrite Hk; discriminate).
  destruct (Fs.stat t (removelast k)) as [e|[c0|]]; try discriminate.
  destruct (Fs.name_too_long _); [discriminate|].
  intros H. repeat split; try done.
  rewrite utf8_text_encode in H.
  destruct (t !! k) as [[c0|]|]; congruence.
Qed.

(** After a write that went through, the file is there with the content
    written. *)
Lemma writeFile_then_stat t t' p c :
  Fs.writeFile t p (JStr c) = (t', inr ()) ->
  Fs.locate t' p = inr (Fs.File c).
Proof.
  intros H. apply writeFile_done in H as (Hcheck & Hne & Hdir & Hname & ->).
  unfold Fs.locate. rewrite Hcheck. set (k := Fs.key p) in *.
  pose proof (removelast_shorter k Hne) as Hlen.
  rewrite (app_removelast_last "" Hne) at 2.
  unfold Fs.stat in *. rewrite walk_snoc.
  rewrite walk_insert_deeper by (cbn; lia).
  rewrite Hdir, Hname. cbn [app]. rewrite <- (app_removelast_last "" Hne).
  now rewrite node_at_nonempty, lookup_insert_eq.
Qed.

(** After an unlink that went through, the system finds no entry at the
    path. *)
Lemma unlink_then_ENOENT t t' p :
  Fs.unlink t p = (t', inr ()) ->
  Fs.locate t' p = inl Fs.ENOENT.
Proof.
  unfold Fs.unlink, Fs.locate. destruct (Fs.check_path p); [discriminate|].
  set (k := Fs.key p).
  destruct (Fs.stat t k) as [e|[c0|]] eqn:Hst; try discriminate.
  intros [= <-]. apply stat_file_parent in Hst as (Hk & Hdir & _ & Hname).
  pose proof (removelast_shorter k Hk) as Hlen.
  rewrite (app_removelast_last "" Hk) at 2.
  unfold Fs.stat in *. rewrite walk_snoc.
  rewrite walk_delete_deeper by (cbn; lia). rewrite Hdir, Hname. cbn [app].
  rewrite <- (app_removelast_last "" Hk).
  now rewrite node_at_nonempty, lookup_delete_eq.
Qed.

End Walk.

(** ** Round trips of the file tool *)

Section RoundTrip.

Variable cwd : string.
Variable tool : FileOpsTool.t.

Lemma writeFile_Ok (fs fs1 : Fs.tree) (p' c : string) :
  FileOpsTool.writeFile fs p' (JStr c) = (fs1, Ok ()) ->
  Fs.locate fs1 p' = inr (Fs.File c).
Proof.
  unfold FileOpsTool.writeFile.
  destruct (Fs.mkdir_recursive fs (Path.dirname p')) as [fsm [e|[]]]; [discriminate|].
  destruct (Fs.writeFile fsm p' (JStr c)) as [fs2 [e|[]]] eqn:W; [discriminate|].
  intros [= <-]. eauto using writeFile_then_stat.
Qed.

Lemma deleteFile_Ok_ENOENT (fs fs1 : Fs.tree) (p' : string) :
  FileOpsTool.deleteFile fs p' = (fs1, Ok ()) ->
  Fs.locate fs1 p' = inl Fs.ENOENT.
Proof.
  unfold FileOpsTool.deleteFile.
  destruct (Fs.unlink fs p') as [fs2 [e|[]]] eqn:U.
  - destruct (Fs.is_ENOENT (Fs.code e)); discriminate.
  - intros [= <-]. eauto using unlink_then_ENOENT.
Qed.


End RoundTrip.




(** ** The order of validation *)

Section ValidationOrder.

Ltac first_check :=
  cbv beta iota zeta delta [outcome first_failure List.find fails report];
  repeat match goal with
         | |- context [if ?b then _ else _] => destruct b
         end; reflexivity.

Lemma calculator_validation (o : Args) :
  CalculatorTool.validateInput (Some o) = outcome calculator_checks o.
Proof. unfold CalculatorTool.validateInput, calculator_checks. first_check. Qed.

Lemma weather_validation (o : Args) :
  WeatherTool.validateInput (Some o) = outcome weather_checks o.
Proof. unfold WeatherTool.validateInput, weather_checks. first_check. Qed.

Lemma file_validation_checks (cwd : string) (tool : FileOpsTool.t) (o : Args) :
  file_validation cwd tool o = outcome (file_checks cwd tool) o.
Proof.
  unfold file_validation, FileOpsTool.validateInput, FileOpsTool.validatePath, file_checks.
  cbv beta iota zeta delta [outcome first_failure List.find fails report mbind Result_bind].
  repeat match goal with
         | |- context [if ?b then _ else _] => destruct b
         end; reflexivity.
Qed.

(** What [performOperation] throws is what its two checks throw. *)
Lemma performOperation_validation (cwd : string) (tool : FileOpsTool.t) (fs : Fs.tree)
    (o : Args) :
  match (FileOpsTool.performOperation cwd tool fs (Some o)).2 with
  | Throw e => file_validation cwd tool o = Throw e
  | Ok _ => file_validation cwd tool o = Ok ()
  end.
Proof.
  unfold file_validation.
  destruct (FileOpsTool.performOperation cwd tool fs (Some o)) as [fs' [e|r]] eqn:H;
    cbn [snd].
  - apply performOperation_throws in H as [-> | [-> H]]; [reflexivity|].
    change (default ∅ (Some o)) with o in H. now rewrite H.
  - pose proof (performOperation_is_Ok cwd tool fs (Some o)) as E. rewrite H in E.
    change (default ∅ (Some o)) with o in E. cbn [snd is_Ok] in E.
    symmetry in E. apply andb_true_iff in E as [E1 E2].
    destruct (FileOpsTool.validateInput (Some o)) as [|[]]; [discriminate|].
    destruct (FileOpsTool.validatePath _ _ _); [discriminate|reflexivity].
Qed.

End ValidationOrder.

(** C7, as the code has it. Each handler reports one violation: that of
    the first failing check in its own fixed sequence.  The sequence goes
    field by field in the declared order, each field with its presence,
    type and enumeration together, and the constraints of the tool where
    the code puts them; it does not go through all presences, then all
    types, then all enumerations.  For the calculator the fields come in
    the order operation, a, b: without an operation and with a string for
    [a] the operation is reported, and with the operation [add], a string
    for [a] and no [b] it is [a]. *)
Theorem validation_reports_first_failing_check (cwd : string) (tool : FileOpsTool.t)
    (fs : Fs.tree) (o : Args) :
  CalculatorTool.validateInput (Some o) = outcome calculator_checks o
  /\ WeatherTool.validateInput (Some o) = outcome weather_checks o
  /\ file_validation cwd tool o = outcome (file_checks cwd tool) o
  /\ match (FileOpsTool.performOperation cwd tool fs (Some o)).2 with
     | Throw e => outcome (file_checks cwd tool) o = Throw e
     | Ok _ => outcome (file_checks cwd tool) o = Ok ()
     end
  /\ map violation calculator_checks
     = [ {| v_kind := Presence; v_field := "operation" |};
         {| v_kind := Enum; v_field := "operation" |};
         {| v_kind := TypeOf; v_field := "a" |};
         {| v_kind := PresenceAndType; v_field := "b" |};
         {| v_kind := Semantic; v_field := "b" |};
         {| v_kind := Semantic; v_field := "a" |} ]
  /\ CalculatorTool.validateInput (Some {[ "a" := JStr "seven" ]})
     = Throw (Error "Operation is required")
  /\ CalculatorTool.validateInput (Some {[ "operation" := JStr "add"; "a" := JStr "seven" ]})
     = Throw (Error ("Parameter " +:+ dq +:+ "a" +:+ dq +:+ " must be a valid number")).
Proof.
  split; [apply calculator_validation|].
  split; [apply weather_validation|].
  split; [apply file_validation_checks|].
  split.
  { rewrite <- file_validation_checks. apply performOperation_validation. }
  repeat split; vm_compute; reflexivity.
Qed.

(** The claim as the specification words it fails.  An unknown operation
    without [a]: by the worded order the missing [a] comes first (all
    presences are checked before any enumeration), and the calculator
    reports the operation.  A blank location with unknown units: by the
    worded order the enumeration comes before the constraint of the tool,
    and the weather tool reports the blank location. *)
Lemma validation_order_is_not_by_phase :
  spec_order_first CalculatorTool.getToolDefinition calculator_checks
    {[ "operation" := JStr "bogus" ]}
  = Some {| v_kind := Presence; v_field := "a" |}
  /\ reported calculator_checks {[ "operation" := JStr "bogus" ]}
     = Some {| v_kind := Enum; v_field := "operation" |}
  /\ CalculatorTool.validateInput (Some {[ "operation" := JStr "bogus" ]})
     = Throw (Error
         "Invalid operation. Must be one of: add, subtract, multiply, divide, power, sqrt")
  /\ spec_order_first WeatherTool.getToolDefinition weather_checks
       {[ "location" := JStr "  "; "units" := JStr "kelvin" ]}
     = Some {| v_kind := Enum; v_field := "units" |}
  /\ reported weather_checks {[ "location" := JStr "  "; "units" := JStr "kelvin" ]}
     = Some {| v_kind := Semantic; v_field := "location" |}
  /\ WeatherTool.validateInput (Some {[ "location" := JStr "  "; "units" := JStr "kelvin" ]})
     = Throw (Error "Location cannot be empty").
Proof. repeat split; vm_compute; reflexivity. Qed.

(** * Further properties of the code *)

(** ** Splitting, normalizing and rendering paths *)

Section PathFacts.

Implicit Types (s a b : string) (segs acc : list string).

Lemma split_nonempty s : Path.split s <> [].
Proof.
  induction s as [|c s IH]; cbn; [discriminate|].
  destruct (Path.is_slash c); [discriminate|].
  now destruct (Path.split s).
Qed.

Lemma split_plain s : has_slash s = false -> Path.split s = [s].
Proof.
  induction s as [|c s IH]; cbn; [reflexivity|].
  intros H. apply orb_false_iff in H as [-> H]. now rewrite IH.
Qed.

Lemma append_cons c a b : String c a +:+ b = String c (a +:+ b).
Proof. reflexivity. Qed.

Lemma append_empty b : "" +:+ b = b.
Proof. reflexivity. Qed.

Lemma split_app_slash a b :
  Path.split (a +:+ "/" +:+ b) = (Path.split a ++ Path.split b)%list.
Proof.
  induction a as [|c a IH].
  - rewrite append_empty, append_cons, append_empty. reflexivity.
  - rewrite append_cons. cbn [Path.split]. rewrite IH.
    destruct (Path.is_slash c); [reflexivity|].
    pose proof (split_nonempty a). now destruct (Path.split a).
Qed.

Lemma split_has_slash s : Forall (fun x => has_slash x = false) (Path.split s).
Proof.
  induction s as [|c s IH]; cbn; [repeat constructor|].
  destruct (Path.is_slash c) eqn:E; [constructor; [reflexivity|exact IH]|].
  destruct (Path.split s) as [|h t]; [repeat constructor; cbn; now rewrite E|].
  inversion IH; subst. constructor; [cbn; now rewrite E|assumption].
Qed.

Lemma split_concat segs :
  segs <> [] -> Forall (fun x => plain_name x = true) segs ->
  Path.split (String.concat "/" segs) = segs.
Proof.
  induction segs as [|x segs IH]; [done|]. intros _ Hall.
  inversion Hall as [|? ? Hx Hrest]; subst.
  assert (Hns : has_slash x = false).
  { unfold plain_name in Hx. apply andb_true_iff in Hx as [_ Hx].
    now apply negb_true_iff in Hx. }
  destruct segs as [|y segs]; [now apply split_plain|].
  change (String.concat "/" (x :: y :: segs))
    with (x +:+ "/" +:+ String.concat "/" (y :: segs)).
  rewrite split_app_slash, split_plain by done.
  cbn [app]. f_equal. now apply IH.
Qed.

Lemma normalize_step_plain acc x :
  plain_name x = true -> Path.normalize_step acc x = (acc ++ [x])%list.
Proof.
  unfold plain_name, Path.normalize_step. intros H.
  repeat (apply andb_true_iff in H as [H ?]).
  repeat match goal with H : negb _ = true |- _ => apply negb_true_iff in H end.
  now repeat match goal with H : String.eqb _ _ = false |- _ => rewrite H; clear H end.
Qed.

Lemma fold_normalize_plain segs acc :
  Forall (fun x => plain_name x = true) segs ->
  fold_left Path.normalize_step segs acc = (acc ++ segs)%list.
Proof.
  revert acc. induction segs as [|x segs IH]; intros acc Hall; cbn.
  - now rewrite app_nil_r.
  - inversion Hall; subst. rewrite normalize_step_plain by done.
    rewrite IH by done. now rewrite <- app_assoc.
Qed.

Lemma Forall_removelast {A} (P : A -> Prop) (l : list A) :
  Forall P l -> Forall P (removelast l).
Proof.
  induction l as [|x l IH]; cbn; [done|].
  intros H. inversion H; subst. destruct l; [constructor|]. constructor; auto.
Qed.

(** Normalizing leaves plain names only. *)
Lemma fold_normalize_is_plain l acc :
  Forall (fun x => has_slash x = false) l ->
  Forall (fun x => plain_name x = true) acc ->
  Forall (fun x => plain_name x = true) (fold_left Path.normalize_step l acc).
Proof.
  revert acc. induction l as [|x l IH]; intros acc Hl Hacc; cbn; [done|].
  inversion Hl as [|? ? Hx Hrest]; subst. apply IH; [done|].
  unfold Path.normalize_step.
  destruct (String.eqb x "") eqn:E1; cbn; [done|].
  destruct (String.eqb x ".") eqn:E2; cbn; [done|].
  destruct (String.eqb x "..") eqn:E3; [now apply Forall_removelast|].
  apply Forall_app. split; [done|]. constructor; [|constructor].
  unfold plain_name. now rewrite E1, E2, E3, Hx.
Qed.

Lemma resolve_segments_plain cwd p :
  Forall (fun x => plain_name x = true) (Path.resolve_segments cwd p).
Proof.
  unfold Path.resolve_segments, Path.normalize.
  apply fold_normalize_is_plain; [apply split_has_slash|constructor].
Qed.

(** The segments of a rendered path are the segments rendered. *)
Lemma key_render segs :
  Forall (fun x => plain_name x = true) segs -> Fs.key (Path.render segs) = segs.
Proof.
  intros Hall. unfold Fs.key, Path.render.
  change ("/" +:+ String.concat "/" segs) with (String Path.slash (String.concat "/" segs)).
  change (Path.split (String Path.slash ?x)) with ("" :: Path.split x).
  change (Path.normalize ("" :: ?l)) with (fold_left Path.normalize_step l []).
  destruct segs as [|x segs]; [reflexivity|].
  rewrite split_concat; [|discriminate|exact Hall].
  now rewrite fold_normalize_plain.
Qed.

Lemma resolve_segments_render cwd segs :
  Forall (fun x => plain_name x = true) segs ->
  Path.resolve_segments cwd (Path.render segs) = segs.
Proof. intros Hall. now apply key_render. Qed.

Lemma key_resolve cwd p : Fs.key (Path.resolve cwd p) = Path.resolve_segments cwd p.
Proof. apply key_render, resolve_segments_plain. Qed.

Lemma resolve_idempotent cwd p :
  Path.resolve cwd (Path.resolve cwd p) = Path.resolve cwd p.
Proof.
  unfold Path.resolve at 1. unfold Path.resolve.
  now rewrite resolve_segments_render by apply resolve_segments_plain.
Qed.

End PathFacts.

(** ** The path check on normalized paths *)

Section PathCheck.

Implicit Types (k rest : list string).

Lemma prefix_append (a b : string) : String.prefix a (a +:+ b) = true.
Proof.
  induction a as [|c a IH]; [now destruct b|].
  rewrite append_cons. cbn. now destruct (Ascii.ascii_dec c c).
Qed.

Lemma append_assoc (a b c : string) : (a +:+ b) +:+ c = a +:+ (b +:+ c).
Proof. induction a as [|x a IH]; [reflexivity|]. now rewrite !append_cons, IH. Qed.

Lemma concat_app_tail k rest :
  exists tail, String.concat "/" (k ++ rest) = String.concat "/" k +:+ tail.
Proof.
  induction k as [|x k IH]; [now exists (String.concat "/" rest)|].
  destruct k as [|y k].
  - destruct rest as [|z rest]; [exists ""|exists ("/" +:+ String.concat "/" (z :: rest))].
    + cbn. clear. induction x as [|c x IH]; [reflexivity|]. now rewrite append_cons, <- IH.
    + reflexivity.
  - destruct IH as [tail IH]. exists tail.
    change (String.concat "/" ((x :: y :: k) ++ rest))
      with (x +:+ "/" +:+ String.concat "/" ((y :: k) ++ rest)).
    change (String.concat "/" (x :: y :: k))
      with (x +:+ "/" +:+ String.concat "/" (y :: k)).
    now rewrite IH, !append_assoc.
Qed.

Lemma prefix_render k rest :
  String.prefix (Path.render k) (Path.render (k ++ rest)) = true.
Proof.
  unfold Path.render. destruct (concat_app_tail k rest) as [tail ->].
  rewrite <- append_assoc. apply prefix_append.
Qed.

Lemma is_prefix_app k k' :
  Path.is_prefix k k' = true <-> exists rest, k' = (k ++ rest)%list.
Proof.
  revert k'. induction k as [|x k IH]; intros k'; cbn.
  - split; eauto.
  - destruct k' as [|y k']; [split; [discriminate|intros [? [=]]]|].
    rewrite andb_true_iff, String.eqb_eq, IH. split.
    + intros [-> [rest ->]]. eauto.
    + intros [rest [= -> ->]]. eauto.
Qed.

(** Within a directory means a string prefix. *)
Lemma within_prefix (cwd dir p : string) :
  Path.within cwd dir p = true ->
  String.prefix (Path.resolve cwd dir) (Path.resolve cwd p) = true.
Proof.
  unfold Path.within, Path.resolve. intros H.
  apply is_prefix_app in H as [rest ->]. apply prefix_render.
Qed.

Lemma isAbsolute_concat_plain (x : string) (segs : list string) :
  plain_name x = true -> Path.isAbsolute (String.concat "/" (x :: segs)) = false.
Proof.
  intros Hx. unfold plain_name in Hx.
  repeat (apply andb_true_iff in Hx as [Hx ?]).
  destruct x as [|c x]; [discriminate|].
  assert (Path.is_slash c = false) as Hc.
  { match goal with H : negb (has_slash _) = true |- _ =>
      apply negb_true_iff in H; cbn in H; now apply orb_false_iff in H as [? _] end. }
  destruct segs; cbn; [exact Hc|]. now rewrite append_cons.
Qed.

(** A relative path of plain names resolves to the working directory
    followed by these names. *)
Lemma resolve_segments_relative (cwd : string) (segs : list string) :
  Path.isAbsolute cwd = true -> segs <> [] ->
  Forall (fun x => plain_name x = true) segs ->
  Path.resolve_segments cwd (String.concat "/" segs)
  = (Path.resolve_segments cwd cwd ++ segs)%list.
Proof.
  intros Hcwd Hne Hall. unfold Path.resolve_segments at 1 2. rewrite Hcwd.
  destruct segs as [|x segs]; [done|].
  rewrite isAbsolute_concat_plain by (now inversion Hall).
  rewrite split_app_slash. unfold Path.normalize. rewrite fold_left_app.
  rewrite split_concat by done. now apply fold_normalize_plain.
Qed.

End PathCheck.

(** X1. What the path check returns is the resolved path, and it is in
    normal form: absolute, made of plain names only (no empty segment, no
    [.] and no [..]), equal to the rendering of its own segments; checked
    again it is accepted and returned unchanged. *)
Theorem validatePath_returns_normal_form (cwd : string) (tool : FileOpsTool.t)
    (p r : string) :
  FileOpsTool.validatePath cwd tool p = Ok r ->
  r = Path.resolve cwd p
  /\ Path.isAbsolute r = true
  /\ Forall (fun x => plain_name x = true) (Fs.key r)
  /\ Path.render (Fs.key r) = r
  /\ FileOpsTool.validatePath cwd tool r = Ok r.
Proof.
  intros H.
  assert (r = Path.resolve cwd p) as ->.
  { destruct (validatePath_cases cwd tool p) as [E|E]; rewrite E in H; congruence. }
  split; [reflexivity|]. split; [reflexivity|].
  rewrite key_resolve. split; [apply resolve_segments_plain|]. split; [reflexivity|].
  unfold FileOpsTool.validatePath in *. now rewrite resolve_idempotent.
Qed.

Lemma validatePath_returns_normal_form_witness :
  "/tmp/b/c.txt" = Path.resolve "/home/user" "/tmp//a/../b/./c.txt"
  /\ Path.isAbsolute "/tmp/b/c.txt" = true
  /\ Forall (fun x => plain_name x = true) (Fs.key "/tmp/b/c.txt")
  /\ Path.render (Fs.key "/tmp/b/c.txt") = "/tmp/b/c.txt"
  /\ FileOpsTool.validatePath "/home/user" sample_tool "/tmp/b/c.txt" = Ok "/tmp/b/c.txt".
Proof.
  apply (validatePath_returns_normal_form "/home/user" sample_tool
           "/tmp//a/../b/./c.txt" "/tmp/b/c.txt").
  vm_compute. reflexivity.
Defined.

(** X2. The path check refuses no path that lies within an allowed
    directory: when the segments of an allowed directory lead to the path
    or above it, the path is accepted. *)
Theorem validatePath_accepts_within (cwd : string) (tool : FileOpsTool.t) (dir p : string) :
  dir ∈ FileOpsTool.allowedDirectories tool ->
  Path.within cwd dir p = true ->
  FileOpsTool.validatePath cwd tool p = Ok (Path.resolve cwd p).
Proof.
  intros Hin Hw. apply validatePath_Ok. exists dir. split; [done|].
  now apply within_prefix.
Qed.

Lemma validatePath_accepts_within_witness :
  FileOpsTool.validatePath "/home/user" sample_tool "/tmp/a/../notes.txt"
  = Ok (Path.resolve "/home/user" "/tmp/a/../notes.txt").
Proof.
  apply (validatePath_accepts_within "/home/user" sample_tool "/tmp" "/tmp/a/../notes.txt").
  - apply list_elem_of_here.
  - reflexivity.
Defined.

(** X3. With the default directories, in a process whose working
    directory is absolute, every relative path made of plain names is
    accepted, and it resolves to the working directory followed by these
    names. *)
Theorem validatePath_accepts_relative (cwd : string) (segs : list string) :
  Path.isAbsolute cwd = true ->
  segs <> [] ->
  Forall (fun x => plain_name x = true) segs ->
  FileOpsTool.validatePath cwd (FileOpsTool.new cwd None) (String.concat "/" segs)
  = Ok (Path.render (Path.resolve_segments cwd cwd ++ segs)).
Proof.
  intros Hcwd Hne Hall.
  rewrite (validatePath_accepts_within cwd (FileOpsTool.new cwd None) cwd).
  - unfold Path.resolve. now rewrite resolve_segments_relative.
  - cbn. rewrite !elem_of_cons. auto.
  - unfold Path.within. rewrite resolve_segments_relative by done.
    apply is_prefix_app. eauto.
Qed.

Lemma validatePath_accepts_relative_witness :
  FileOpsTool.validatePath "/home/user" (FileOpsTool.new "/home/user" None)
    (String.concat "/" ["data"; "out.txt"])
  = Ok (Path.render (Path.resolve_segments "/home/user" "/home/user" ++ ["data"; "out.txt"])).
Proof.
  apply (validatePath_accepts_relative "/home/user" ["data"; "out.txt"]).
  - reflexivity.
  - discriminate.
  - repeat constructor.
Defined.

(** ** Directories: [path.dirname] and [mkdir] on normalized paths *)

Section DirnameFacts.

Implicit Types (l : list Ascii.ascii) (segs : list string).









End DirnameFacts.

Section MkdirFacts.

Implicit Types (t : Fs.tree) (k q here rest : list string) (n : Fs.node).


End MkdirFacts.



(** ** How the file operations compose *)

Section Composition.

Variable cwd : string.
Variable tool : FileOpsTool.t.

Implicit Types (t : Fs.tree) (k : list string).

Lemma has_nul_app (a b : string) :
  Fs.has_nul (a +:+ b) = Fs.has_nul a || Fs.has_nul b.
Proof.
  induction a as [|x a IH]; [reflexivity|].
  rewrite append_cons. cbn. now rewrite IH, orb_assoc.
Qed.

Lemma length_append (a b : string) :
  String.length (a +:+ b) = String.length a + String.length b.
Proof. induction a as [|x a IH]; [reflexivity|]. rewrite append_cons. cbn. now rewrite IH. Qed.

Lemma utf8_length_app (a b : string) :
  Fs.utf8_length (a +:+ b) = Fs.utf8_length a + Fs.utf8_length b.
Proof.
  unfold Fs.utf8_length. induction a as [|x a IH]; [reflexivity|].
  rewrite append_cons. cbn [Fs.utf8_encode]. rewrite !length_append, IH. lia.
Qed.

(** A path that the system takes begins with paths that it takes. *)
Lemma check_path_prefix (a b : string) :
  Fs.check_path (a +:+ b) = None -> Fs.check_path a = None.
Proof.
  unfold Fs.check_path. rewrite has_nul_app, utf8_length_app.
  destruct (Fs.has_nul a); [discriminate|]. cbn [orb].
  destruct (Fs.has_nul b); [discriminate|].
  destruct (Nat.leb_spec Fs.PATH_MAX (Fs.utf8_length a + Fs.utf8_length b)); [discriminate|].
  intros _. destruct (Nat.leb_spec Fs.PATH_MAX (Fs.utf8_length a)); [lia|reflexivity].
Qed.

Lemma check_path_render k rest :
  Fs.check_path (Path.render (k ++ rest)) = None -> Fs.check_path (Path.render k) = None.
Proof.
  unfold Path.render. destruct (concat_app_tail k rest) as [tail ->].
  rewrite <- append_assoc. apply check_path_prefix.
Qed.

End Composition.

(** X5. After a write that reports success the file is there: a check
    of existence says so, and the listing of the directory of the file
    shows its name as a file.  The directory may be named by any accepted
    path that resolves to it. *)
Theorem write_then_exists_and_list (cwd : string) (tool : FileOpsTool.t)
    (fs fs1 : Fs.tree) (p q c file_name : string) (r1 : FileOpsTool.FileOpsOutput) :
  p <> "" -> q <> "" ->
  FileOpsTool.validatePath cwd tool p = Ok (Path.resolve cwd p) ->
  FileOpsTool.validatePath cwd tool q = Ok (Path.resolve cwd q) ->
  Path.resolve_segments cwd p = (Path.resolve_segments cwd q ++ [file_name])%list ->
  FileOpsTool.performOperation cwd tool fs (Some (file_args "write" p (Some c)))
    = (fs1, Ok r1) ->
  FileOpsTool.success r1 = true ->
  FileOpsTool.performOperation cwd tool fs1 (Some (file_args "exists" p None))
  = (fs1, Ok {| FileOpsTool.success := true; FileOpsTool.operation := "exists";
                FileOpsTool.path := Path.resolve cwd p;
                FileOpsTool.data := Some (inl "File exists");
                FileOpsTool.message := Some "File exists" |})
  /\ exists files,
       FileOpsTool.performOperation cwd tool fs1 (Some (file_args "list" q None))
       = (fs1, Ok {| FileOpsTool.success := true; FileOpsTool.operation := "list";
                     FileOpsTool.path := Path.resolve cwd q;
                     FileOpsTool.data := Some (inr files);
                     FileOpsTool.message :=
                       Some (FileOpsTool.found_message (length files)) |})
       /\ "[FILE] " +:+ file_name ∈ files.
Proof.
  intros Hp Hq Hvp Hvq Hseg Hw Hs.
  rewrite (performOperation_write _ _ _ _ _ _ Hp Hvp) in Hw.
  destruct (FileOpsTool.writeFile fs (Path.resolve cwd p) (JStr c))
    as [fs' [e|[]]] eqn:W; injection Hw as <- <-; [discriminate|].
  apply writeFile_Ok in W.
  split.
  - rewrite (performOperation_exists _ _ _ _ _ Hp Hvp).
    unfold FileOpsTool.fileExists, Fs.access. rewrite W. reflexivity.
  - unfold Fs.locate in W.
    destruct (Fs.check_path (Path.resolve cwd p)) eqn:Hcheck; [discriminate|].
    rewrite key_resolve in W.
    apply stat_file_parent in W as (_ & Hdir & Hfile & _).
    rewrite Hseg, removelast_last in Hdir. rewrite Hseg in Hfile.
    unfold Path.resolve in Hcheck. rewrite Hseg in Hcheck.
    apply check_path_render in Hcheck.
    rewrite (performOperation_list _ _ _ _ _ Hq Hvq).
    unfold FileOpsTool.listDirectory, Fs.readdir, Fs.locate.
    change (Path.render (Path.resolve_segments cwd q)) with (Path.resolve cwd q) in Hcheck.
    rewrite Hcheck, key_resolve, Hdir.
    eexists. split; [reflexivity|].
    apply list_elem_of_In.
    apply (in_map (fun '(entry_name, isDirectory) =>
             (if isDirectory : bool then "[DIR] " else "[FILE] ") +:+ entry_name)
             _ (file_name, false)).
    apply list_elem_of_In, list_elem_of_omap.
    exists ((Path.resolve_segments cwd q ++ [file_name])%list, Fs.File c). split.
    + now apply elem_of_map_to_list.
    + cbn. assert (Hchild : forall k, Fs.child_name k (k ++ [file_name]) = Some file_name).
      { induction k as [|s k IH]; [reflexivity|]. cbn. now rewrite String.eqb_refl. }
      now rewrite Hchild.
Qed.

Lemma write_then_exists_and_list_witness :
  FileOpsTool.performOperation "/home/user" sample_tool sample_written
    (Some (file_args "exists" "/tmp/a/b.txt" None))
  = (sample_written,
     Ok {| FileOpsTool.success := true; FileOpsTool.operation := "exists";
           FileOpsTool.path := Path.resolve "/home/user" "/tmp/a/b.txt";
           FileOpsTool.data := Some (inl "File exists");
           FileOpsTool.message := Some "File exists" |})
  /\ exists files,
       FileOpsTool.performOperation "/home/user" sample_tool sample_written
         (Some (file_args "list" "/tmp/a/" None))
       = (sample_written,
          Ok {| FileOpsTool.success := true; FileOpsTool.operation := "list";
                FileOpsTool.path := Path.resolve "/home/user" "/tmp/a/";
                FileOpsTool.data := Some (inr files);
                FileOpsTool.message := Some (FileOpsTool.found_message (length files)) |})
       /\ "[FILE] " +:+ "b.txt" ∈ files.
Proof.
  apply (write_then_exists_and_list "/home/user" sample_tool sample_files sample_written
           "/tmp/a/b.txt" "/tmp/a/" "hello" "b.txt"
           {| FileOpsTool.success := true; FileOpsTool.operation := "write";
              FileOpsTool.path := "/tmp/a/b.txt"; FileOpsTool.data := None;
              FileOpsTool.message := Some "File written successfully" |}).
  - discriminate.
  - discriminate.
  - vm_compute. reflexivity.
  - vm_compute. reflexivity.
  - vm_compute. reflexivity.
  - vm_compute. reflexivity.
  - reflexivity.
Defined.

(** X6. After a delete that reports success the file is gone for every
    operation: a read of the path reports [File not found], and so does a
    second delete, which changes nothing. *)
Theorem delete_then_read_and_delete (cwd : string) (tool : FileOpsTool.t)
    (fs fs2 : Fs.tree) (p : string) (r2 : FileOpsTool.FileOpsOutput) :
  p <> "" ->
  FileOpsTool.validatePath cwd tool p = Ok (Path.resolve cwd p) ->
  FileOpsTool.performOperation cwd tool fs (Some (file_args "delete" p None))
    = (fs2, Ok r2) ->
  FileOpsTool.success r2 = true ->
  FileOpsTool.performOperation cwd tool fs2 (Some (file_args "read" p None))
  = (fs2, Ok {| FileOpsTool.success := false; FileOpsTool.operation := "read";
                FileOpsTool.path := Path.resolve cwd p; FileOpsTool.data := None;
                FileOpsTool.message :=
                  Some ("File not found: " +:+ Path.resolve cwd p) |})
  /\ FileOpsTool.performOperation cwd tool fs2 (Some (file_args "delete" p None))
  = (fs2, Ok {| FileOpsTool.success := false; FileOpsTool.operation := "delete";
                FileOpsTool.path := Path.resolve cwd p; FileOpsTool.data := None;
                FileOpsTool.message :=
                  Some ("File not found: " +:+ Path.resolve cwd p) |}).
Proof.
  intros Hp Hv Hd Hs.
  rewrite (performOperation_delete _ _ _ _ _ Hp Hv) in Hd.
  destruct (FileOpsTool.deleteFile fs (Path.resolve cwd p))
    as [fs' [e|[]]] eqn:D; injection Hd as <- <-; [discriminate|].
  apply deleteFile_Ok_ENOENT in D. split.
  - rewrite (performOperation_read _ _ _ _ _ Hp Hv).
    unfold FileOpsTool.readFile, Fs.readFile. now rewrite D.
  - rewrite (performOperation_delete _ _ _ _ _ Hp Hv).
    unfold FileOpsTool.deleteFile, Fs.unlink. now rewrite D.
Qed.

Lemma delete_then_read_and_delete_witness :
  FileOpsTool.performOperation "/home/user" sample_tool sample_deleted
    (Some (file_args "read" "/tmp/a/b.txt" None))
  = (sample_deleted,
     Ok {| FileOpsTool.success := false; FileOpsTool.operation := "read";
           FileOpsTool.path := Path.resolve "/home/user" "/tmp/a/b.txt";
           FileOpsTool.data := None;
           FileOpsTool.message :=
             Some ("File not found: " +:+ Path.resolve "/home/user" "/tmp/a/b.txt") |})
  /\ FileOpsTool.performOperation "/home/user" sample_tool sample_deleted
       (Some (file_args "delete" "/tmp/a/b.txt" None))
  = (sample_deleted,
     Ok {| FileOpsTool.success := false; FileOpsTool.operation := "delete";
           FileOpsTool.path := Path.resolve "/home/user" "/tmp/a/b.txt";
           FileOpsTool.data := None;
           FileOpsTool.message :=
             Some ("File not found: " +:+ Path.resolve "/home/user" "/tmp/a/b.txt") |}).
Proof.
  apply (delete_then_read_and_delete "/home/user" sample_tool sample_written sample_deleted
           "/tmp/a/b.txt"
           {| FileOpsTool.success := true; FileOpsTool.operation := "delete";
              FileOpsTool.path := "/tmp/a/b.txt"; FileOpsTool.data := None;
              FileOpsTool.message := Some "File deleted successfully" |}).
  - discriminate.
  - vm_compute. reflexivity.
  - vm_compute. reflexivity.
  - reflexivity.
Defined.

(** ** What a call leaves as it is *)

Lemma strict_eq_str_true (v : JsVal) (s : string) :
  strict_eq_str v s = true -> v = JStr s.
Proof. destruct v; try discriminate. cbn. now intros ->%String.eqb_eq. Qed.

Lemma deleteFile_failed (fs fs1 : Fs.tree) (p' : string) e :
  FileOpsTool.deleteFile fs p' = (fs1, Throw e) -> fs1 = fs.
Proof.
  unfold FileOpsTool.deleteFile.
  destruct (Fs.unlink fs p') as [fs2 [e0|[]]] eqn:U; [|discriminate].
  apply unlink_fault in U as ->.
  destruct (Fs.is_ENOENT (Fs.code e0)); now intros [= <-].
Qed.

(** X7. Only a write, and a delete that reports success, change the
    files: whenever the file tool throws, or returns the result of
    another operation, or returns a delete that failed, the files are
    exactly as before. *)
Theorem performOperation_keeps_files (cwd : string) (tool : FileOpsTool.t)
    (fs fs' : Fs.tree) (input : option Args) (r : Result FileOpsTool.FileOpsOutput) :
  FileOpsTool.performOperation cwd tool fs input = (fs', r) ->
  (forall out, r = Ok out ->
     FileOpsTool.operation out <> "write"
     /\ (FileOpsTool.operation out = "delete" -> FileOpsTool.success out = false)) ->
  fs' = fs.
Proof.
  unfold FileOpsTool.performOperation.
  destruct (FileOpsTool.validateInput input) as [e|[]]; [now intros [= <-]|].
  destruct (FileOpsTool.validatePath _ _ _) as [e|p']; [now intros [= <-]|].
  set (op := prop (default ∅ input) "operation").
  destruct (strict_eq_str op "read") eqn:Eread.
  { destruct (FileOpsTool.readFile fs p'); now intros [= <-]. }
  destruct (strict_eq_str op "write") eqn:Ewrite.
  { apply strict_eq_str_true in Ewrite. rewrite Ewrite.
    destruct (FileOpsTool.writeFile fs p' _) as [fs1 [e|[]]];
      intros [= <- <-] H; now destruct (H _ eq_refl) as [? _]. }
  destruct (strict_eq_str op "list") eqn:Elist.
  { destruct (FileOpsTool.listDirectory fs p'); now intros [= <-]. }
  destruct (strict_eq_str op "delete") eqn:Edelete.
  { apply strict_eq_str_true in Edelete. rewrite Edelete.
    destruct (FileOpsTool.deleteFile fs p') as [fs1 [e|[]]] eqn:D; intros [= <- <-] H.
    - eauto using deleteFile_failed.
    - destruct (H _ eq_refl) as [_ H']. now specialize (H' eq_refl). }
  destruct (strict_eq_str op "exists"); now intros [= <-].
Qed.

Lemma performOperation_keeps_files_witness :
  (FileOpsTool.performOperation "/home/user" sample_tool sample_files
     (Some (file_args "delete" "/tmp" None))).1 = sample_files.
Proof.
  apply (performOperation_keeps_files "/home/user" sample_tool sample_files _
           (Some (file_args "delete" "/tmp" None))
           (FileOpsTool.performOperation "/home/user" sample_tool sample_files
              (Some (file_args "delete" "/tmp" None))).2).
  - now destruct (FileOpsTool.performOperation _ _ _ _).
  - intros out H. vm_compute in H. injection H as <-. split; [discriminate|reflexivity].
Defined.

(** X8. What each call can touch.  No call moves the clock; only a
    weather call advances the count of random numbers drawn, and only by
    what [getWeather] draws; only a call of the file tool can change the
    files, and only to what [performOperation] leaves. *)
Theorem callTool_frame (rt : Runtime) (this : MCPServer.t) (w : World)
    (name_ : string) (args : option Args) :
  now (callTool rt this w name_ args).1 = now w
  /\ draws (callTool rt this w name_ args).1
     = (if String.eqb name_ "weather"
        then (WeatherTool.getWeather rt (draws w) (now w) args).2
        else draws w)
  /\ files (callTool rt this w name_ args).1
     = (if String.eqb name_ "file_operations"
        then (FileOpsTool.performOperation (process_cwd rt) (fileOpsTool this)
                (files w) args).1
        else files w).
Proof.
  destruct (String.eqb name_ "calculator") eqn:E1.
  { apply String.eqb_eq in E1 as ->. now rewrite callTool_calculator. }
  destruct (String.eqb name_ "weather") eqn:E2.
  { apply String.eqb_eq in E2 as ->. now rewrite callTool_weather. }
  destruct (String.eqb name_ "file_operations") eqn:E3.
  { apply String.eqb_eq in E3 as ->. now rewrite callTool_file_operations. }
  rewrite callTool_switch, switch_name_unregistered; [done|].
  unfold registered. now rewrite E1, E2, E3.
Qed.

(** X9. Every failure carries a message that says where it comes from:
    after the SDK's [MCP error] and the number of the code it goes on
    with [Unknown tool: ] for a name that is not registered and with the
    prefix of the tool otherwise, so it is never empty. *)
Theorem callTool_failure_message (rt : Runtime) (this : MCPServer.t) (w : World)
    (name_ : string) (args : option Args) (kind : ErrorCode) (m : string) :
  (callTool rt this w name_ args).2 = Failure kind m ->
  String.prefix (error_prefix name_) m = true /\ m <> "".
Proof.
  intros H.
  assert (Hpre : String.prefix (error_prefix name_) m = true).
  { unfold error_prefix. revert H.
    destruct (String.eqb name_ "calculator") eqn:E1.
    { apply String.eqb_eq in E1 as ->. rewrite callTool_calculator. cbn [snd].
      destruct (CalculatorTool.calculate _ _); [|discriminate].
      intros [= _ <-]. apply prefix_append. }
    destruct (String.eqb name_ "weather") eqn:E2.
    { apply String.eqb_eq in E2 as ->. rewrite callTool_weather. cbn [snd].
      destruct (WeatherTool.getWeather _ _ _ _).1; [|discriminate].
      intros [= _ <-]. apply prefix_append. }
    destruct (String.eqb name_ "file_operations") eqn:E3.
    { apply String.eqb_eq in E3 as ->. rewrite callTool_file_operations. cbn [snd].
      destruct (FileOpsTool.performOperation _ _ _ _).2; [|discriminate].
      intros [= _ <-]. apply prefix_append. }
    rewrite callTool_switch, switch_name_unregistered
      by (unfold registered; now rewrite E1, E2, E3).
    cbn. intros [= _ <-]. apply prefix_append. }
  split; [done|]. intros ->. revert Hpre. unfold error_prefix.
  now repeat destruct (String.eqb name_ _).
Qed.

Lemma callTool_failure_message_witness :
  String.prefix (error_prefix "calculator")
    "MCP error -32602: Calculator error: Division by zero is not allowed" = true
  /\ "MCP error -32602: Calculator error: Division by zero is not allowed" <> "".
Proof.
  apply (callTool_failure_message sample_rt sample_server sample_world "calculator"
           (Some (calculator_args "divide" 10 (Some 0%float))) InvalidParams).
  vm_compute. reflexivity.
Defined.

(** ** The calculator on all numbers *)

Section CalculatorFacts.

Variable pow : float -> float -> float.

Lemma calculator_args_props (op : string) (a : float) (b : option float) :
  prop (calculator_args op a b) "operation" = JStr op
  /\ prop (calculator_args op a b) "a" = JNum a
  /\ prop (calculator_args op a b) "b"
     = match b with Some y => JNum y | None => JUndefined end.
Proof. destruct b; repeat split; reflexivity. Qed.

Lemma calculate_args (op : string) (a : float) (b : option float) :
  CalculatorTool.calculate pow (Some (calculator_args op a b))
  = (_ ← CalculatorTool.validateInput (Some (calculator_args op a b));
     r ← CalculatorTool.switch_operation pow (JStr op) a
           (num_of match b with Some y => JNum y | None => JUndefined end);
     Ok {| CalculatorTool.result := r; CalculatorTool.operation := op;
           CalculatorTool.inputs_a := a;
           CalculatorTool.inputs_b := match b with Some y => Some (JNum y) | None => None end |}).
Proof.
  unfold CalculatorTool.calculate. change (default ∅ (Some ?o)) with o.
  destruct (calculator_args_props op a b) as (-> & -> & ->). now destruct b.
Qed.

Lemma validateInput_args (op : string) (a : float) (b : option float) :
  CalculatorTool.validateInput (Some (calculator_args op a b))
  = if negb (String.eqb op "") && includes CalculatorTool.validOperations (JStr op)
    then if PrimFloat.is_nan a
         then Throw (Error ("Parameter " +:+ dq +:+ "a" +:+ dq +:+ " must be a valid number"))
         else if negb (String.eqb op "sqrt")
                 && match b with Some y => PrimFloat.is_nan y | None => true end
         then Throw (Error ("Parameter " +:+ dq +:+ "b" +:+ dq +:+ " is required for "
                            +:+ op +:+ " operation"))
         else if String.eqb op "divide"
                 && match b with Some y => PrimFloat.eqb y 0 | None => false end
         then Throw (Error "Division by zero is not allowed")
         else if String.eqb op "sqrt" && PrimFloat.ltb a 0
         then Throw (Error "Cannot calculate square root of negative number")
         else Ok ()
    else CalculatorTool.validateInput (Some (calculator_args op a b)).
Proof.
  destruct (negb (String.eqb op "") && includes CalculatorTool.validOperations (JStr op))
    eqn:E; [|reflexivity].
  apply andb_true_iff in E as [E1 E2].
  unfold CalculatorTool.validateInput.
  destruct (calculator_args_props op a b) as (-> & -> & ->).
  cbn [truthy str_of strict_eq_str]. rewrite E1, E2. cbn [negb].
  change (is_number (JNum a)) with true. cbn [negb orb isNaN].
  destruct (PrimFloat.is_nan a); [reflexivity|].
  destruct b as [y|]; cbn; reflexivity.
Qed.

End CalculatorFacts.

(** X10. On two numbers that are not NaN the calculator adds, subtracts,
    multiplies and raises to a power as the engine does on doubles
    (infinities included), and returns the operation and both operands
    with the result. *)
Theorem calculate_arithmetic (pow : float -> float -> float) (a b : float) :
  PrimFloat.is_nan a = false ->
  PrimFloat.is_nan b = false ->
  CalculatorTool.calculate pow (Some (calculator_args "add" a (Some b)))
  = Ok (calculator_output (a + b) "add" a (Some (JNum b)))
  /\ CalculatorTool.calculate pow (Some (calculator_args "subtract" a (Some b)))
  = Ok (calculator_output (a - b) "subtract" a (Some (JNum b)))
  /\ CalculatorTool.calculate pow (Some (calculator_args "multiply" a (Some b)))
  = Ok (calculator_output (a * b) "multiply" a (Some (JNum b)))
  /\ CalculatorTool.calculate pow (Some (calculator_args "power" a (Some b)))
  = Ok (calculator_output (pow a b) "power" a (Some (JNum b))).
Proof.
  intros Ha Hb.
  repeat split; rewrite calculate_args, validateInput_args; cbn; now rewrite Ha, Hb.
Qed.

Lemma calculate_arithmetic_witness :
  CalculatorTool.calculate (Math_pow sample_rt) (Some (calculator_args "add" 1.5 (Some 0.25%float)))
  = Ok (calculator_output (1.5 + 0.25) "add" 1.5 (Some (JNum 0.25)))
  /\ CalculatorTool.calculate (Math_pow sample_rt)
       (Some (calculator_args "subtract" 1.5 (Some 0.25%float)))
  = Ok (calculator_output (1.5 - 0.25) "subtract" 1.5 (Some (JNum 0.25)))
  /\ CalculatorTool.calculate (Math_pow sample_rt)
       (Some (calculator_args "multiply" 1.5 (Some 0.25%float)))
  = Ok (calculator_output (1.5 * 0.25) "multiply" 1.5 (Some (JNum 0.25)))
  /\ CalculatorTool.calculate (Math_pow sample_rt)
       (Some (calculator_args "power" 1.5 (Some 0.25%float)))
  = Ok (calculator_output (Math_pow sample_rt 1.5 0.25) "power" 1.5 (Some (JNum 0.25))).
Proof.
  apply (calculate_arithmetic (Math_pow sample_rt) 1.5 0.25); reflexivity.
Defined.

(** X11. A division of numbers that are not NaN is refused exactly when
    the divisor equals zero, the negative zero included; otherwise the
    quotient of the doubles is returned. *)
Theorem calculate_divide (pow : float -> float -> float) (a b : float) :
  PrimFloat.is_nan a = false ->
  PrimFloat.is_nan b = false ->
  CalculatorTool.calculate pow (Some (calculator_args "divide" a (Some b)))
  = if PrimFloat.eqb b 0
    then Throw (Error "Division by zero is not allowed")
    else Ok (calculator_output (a / b) "divide" a (Some (JNum b))).
Proof.
  intros Ha Hb. rewrite calculate_args, validateInput_args. cbn. rewrite Ha, Hb.
  now destruct (PrimFloat.eqb b 0).
Qed.

Lemma calculate_divide_witness :
  CalculatorTool.calculate (Math_pow sample_rt)
    (Some (calculator_args "divide" 1 (Some (-0)%float)))
  = if PrimFloat.eqb (-0) 0
    then Throw (Error "Division by zero is not allowed")
    else Ok (calculator_output (1 / -0) "divide" 1 (Some (JNum (-0)))).
Proof.
  apply (calculate_divide (Math_pow sample_rt) 1 (-0)); reflexivity.
Defined.

(** X12. The square root looks at [a] only: for a number [a] that is not
    NaN it is refused exactly when [a] is below zero, and otherwise
    returned whatever [b] holds, a string or nothing included; [b] is
    never checked, and it is returned with the inputs unless it is
    undefined. *)
Theorem calculate_sqrt_ignores_b (pow : float -> float -> float) (o : Args) (a : float) :
  o !! "operation" = Some (JStr "sqrt") ->
  o !! "a" = Some (JNum a) ->
  PrimFloat.is_nan a = false ->
  CalculatorTool.calculate pow (Some o)
  = if PrimFloat.ltb a 0
    then Throw (Error "Cannot calculate square root of negative number")
    else Ok (calculator_output (PrimFloat.sqrt a) "sqrt" a
               (if is_undefined (prop o "b") then None else Some (prop o "b"))).
Proof.
  intros Hop Ha Hnan.
  unfold CalculatorTool.calculate, CalculatorTool.validateInput.
  change (default ∅ (Some o)) with o.
  assert (Eop : prop o "operation" = JStr "sqrt") by (unfold prop; now rewrite Hop).
  assert (Ea : prop o "a" = JNum a) by (unfold prop; now rewrite Ha).
  rewrite Eop, Ea. cbn. rewrite Hnan. cbn.
  now destruct (PrimFloat.ltb a 0).
Qed.

Lemma calculate_sqrt_ignores_b_witness :
  CalculatorTool.calculate (Math_pow sample_rt)
    (Some {[ "operation" := JStr "sqrt"; "a" := JNum 9; "b" := JStr "ignored" ]})
  = if PrimFloat.ltb 9 0
    then Throw (Error "Cannot calculate square root of negative number")
    else Ok (calculator_output (PrimFloat.sqrt 9) "sqrt" 9
               (if is_undefined
                     (prop {[ "operation" := JStr "sqrt"; "a" := JNum 9;
                              "b" := JStr "ignored" ]} "b")
                then None
                else Some (prop {[ "operation" := JStr "sqrt"; "a" := JNum 9;
                                   "b" := JStr "ignored" ]} "b"))).
Proof.
  apply (calculate_sqrt_ignores_b (Math_pow sample_rt)
           {[ "operation" := JStr "sqrt"; "a" := JNum 9; "b" := JStr "ignored" ]} 9);
    reflexivity.
Defined.

Lemma includes_true (l : list string) (v : JsVal) :
  includes l v = true -> exists s, v = JStr s /\ s ∈ l.
Proof.
  unfold includes. intros H. apply existsb_exists in H as (s & Hin & Heq).
  apply strict_eq_str_true in Heq. exists s. now rewrite list_elem_of_In.
Qed.

Lemma is_number_true (v : JsVal) : is_number v = true -> exists x, v = JNum x.
Proof. destruct v; try discriminate. eauto. Qed.

(** What the input check of the calculator lets through. *)
Lemma calculator_validateInput_Ok (o : Args) :
  CalculatorTool.validateInput (Some o) = Ok () ->
  exists s x,
    prop o "operation" = JStr s /\ s ∈ CalculatorTool.validOperations
    /\ prop o "a" = JNum x /\ PrimFloat.is_nan x = false
    /\ (s = "sqrt" -> PrimFloat.ltb x 0 = false)
    /\ (s <> "sqrt" ->
        exists b, prop o "b" = JNum b /\ PrimFloat.is_nan b = false
                  /\ (s = "divide" -> PrimFloat.eqb b 0 = false)).
Proof.
  unfold CalculatorTool.validateInput.
  destruct (truthy (prop o "operation")); cbn [negb]; [|discriminate].
  destruct (includes _ (prop o "operation")) eqn:Einc; cbn [negb]; [|discriminate].
  apply includes_true in Einc as (s & Eop & Hs). rewrite Eop.
  destruct (is_number (prop o "a")) eqn:Ea; cbn [negb orb]; [|discriminate].
  apply is_number_true in Ea as [x Ea]. rewrite Ea. cbn [isNaN].
  destruct (PrimFloat.is_nan x) eqn:Ex; [discriminate|].
  cbn [strict_eq_str str_of lt_num].
  destruct (String.eqb s "sqrt") eqn:Esqrt; cbn [negb andb].
  - apply String.eqb_eq in Esqrt as ->. cbn.
    destruct (PrimFloat.ltb x 0) eqn:Elt; [discriminate|]. intros _.
    exists "sqrt", x. repeat split; try done.
  - apply String.eqb_neq in Esqrt.
    destruct (is_undefined (prop o "b")) eqn:Eu; cbn [orb]; [discriminate|].
    destruct (is_number (prop o "b")) eqn:Eb; cbn [negb orb]; [|discriminate].
    apply is_number_true in Eb as [b Eb]. rewrite Eb. cbn [isNaN strict_eq_num].
    destruct (PrimFloat.is_nan b) eqn:Enb; [discriminate|].
    destruct (String.eqb s "divide" && PrimFloat.eqb b 0) eqn:Ediv; [discriminate|].
    intros _. exists s, x. repeat split; try done.
    exists b. repeat split; try done. intros ->. exact Ediv.
Qed.

(** X13. The calculator returns a result only for what it was built for:
    the operation is one of the six, [a] is a number that is not NaN and
    is returned as given; for the square root [a] is not below zero; for
    every other operation [b] is a number that is not NaN too, and it is
    not zero when the operation is a division. *)
Theorem calculate_success_sound (pow : float -> float -> float) (input : option Args)
    (out : CalculatorTool.CalculatorOutput) :
  CalculatorTool.calculate pow input = Ok out ->
  exists o,
    input = Some o
    /\ CalculatorTool.operation out ∈ CalculatorTool.validOperations
    /\ prop o "operation" = JStr (CalculatorTool.operation out)
    /\ prop o "a" = JNum (CalculatorTool.inputs_a out)
    /\ PrimFloat.is_nan (CalculatorTool.inputs_a out) = false
    /\ (CalculatorTool.operation out = "sqrt" ->
        PrimFloat.ltb (CalculatorTool.inputs_a out) 0 = false)
    /\ (CalculatorTool.operation out <> "sqrt" ->
        exists b, prop o "b" = JNum b /\ PrimFloat.is_nan b = false
                  /\ CalculatorTool.inputs_b out = Some (JNum b)
                  /\ (CalculatorTool.operation out = "divide" -> PrimFloat.eqb b 0 = false)).
Proof.
  unfold CalculatorTool.calculate.
  destruct input as [o|]; [|discriminate]. change (default ∅ (Some o)) with o.
  destruct (CalculatorTool.validateInput (Some o)) as [e|[]] eqn:Hv; [discriminate|].
  apply calculator_validateInput_Ok in Hv as (s & x & Eop & Hs & Ea & Hx & Hsqrt & Hb).
  rewrite Eop, Ea. cbn [mbind Result_bind str_of num_of].
  destruct (CalculatorTool.switch_operation pow (JStr s) x _) as [e|r]; [discriminate|].
  intros [= <-]. exists o. cbn. repeat split; try done.
  intros Hne. destruct (Hb Hne) as (b & Eb & Hnb & Hdiv).
  exists b. rewrite Eb. now repeat split.
Qed.

Lemma calculate_success_sound_witness :
  exists o,
    Some (calculator_args "divide" 1 (Some 4%float)) = Some o
    /\ CalculatorTool.operation (calculator_output 0.25 "divide" 1 (Some (JNum 4)))
       ∈ CalculatorTool.validOperations
    /\ prop o "operation"
       = JStr (CalculatorTool.operation (calculator_output 0.25 "divide" 1 (Some (JNum 4))))
    /\ prop o "a"
       = JNum (CalculatorTool.inputs_a (calculator_output 0.25 "divide" 1 (Some (JNum 4))))
    /\ PrimFloat.is_nan
         (CalculatorTool.inputs_a (calculator_output 0.25 "divide" 1 (Some (JNum 4)))) = false
    /\ (CalculatorTool.operation (calculator_output 0.25 "divide" 1 (Some (JNum 4))) = "sqrt" ->
        PrimFloat.ltb
          (CalculatorTool.inputs_a (calculator_output 0.25 "divide" 1 (Some (JNum 4)))) 0
        = false)
    /\ (CalculatorTool.operation (calculator_output 0.25 "divide" 1 (Some (JNum 4))) <> "sqrt" ->
        exists b, prop o "b" = JNum b /\ PrimFloat.is_nan b = false
                  /\ CalculatorTool.inputs_b (calculator_output 0.25 "divide" 1 (Some (JNum 4)))
                     = Some (JNum b)
                  /\ (CalculatorTool.operation
                        (calculator_output 0.25 "divide" 1 (Some (JNum 4))) = "divide"
                      -> PrimFloat.eqb b 0 = false)).
Proof.
  apply (calculate_success_sound (Math_pow sample_rt)
           (Some (calculator_args "divide" 1 (Some 4%float)))
           (calculator_output 0.25 "divide" 1 (Some (JNum 4)))).
  vm_compute. reflexivity.
Defined.

(** ** The weather tool on all inputs *)

Section WeatherMore.

Variable rt : Runtime.

Lemma map_days_draws (temperature : float) (ds : list string) (n : nat) :
  (WeatherTool.map_days rt temperature n ds).2 = n + 3 * length ds.
Proof.
  revert n. induction ds as [|d ds IH]; intros n; cbn [WeatherTool.map_days length].
  - cbn. lia.
  - unfold WeatherTool.forecast_entry. specialize (IH (n + 3)).
    destruct (WeatherTool.map_days rt temperature (n + 3) ds) as [es n2].
    cbn in *. lia.
Qed.

Lemma generateWeatherData_draws (n : nat) (now_ loc : string) (u : JsVal) :
  (WeatherTool.generateWeatherData rt n now_ loc u).2 = n + 25
  /\ WeatherTool.timestamp (WeatherTool.generateWeatherData rt n now_ loc u).1 = now_.
Proof.
  unfold WeatherTool.generateWeatherData.
  match goal with |- context [WeatherTool.map_days rt ?t ?m ?ds] =>
    pose proof (map_days_draws t ds m) as Hd;
    destruct (WeatherTool.map_days rt t m ds) as [es n2] end.
  cbn in *. split; [lia|reflexivity].
Qed.

Lemma getWeather_result (n : nat) (now_ : string) (input : option Args) :
  WeatherTool.getWeather rt n now_ input
  = match WeatherTool.validateInput input with
    | Throw e => (Throw e, n)
    | Ok _ =>
        let o := default ∅ input in
        let g := WeatherTool.generateWeatherData rt n now_ (str_of (prop o "location"))
                   (if truthy (prop o "units") then prop o "units" else JStr "celsius") in
        (Ok g.1, g.2)
    end.
Proof.
  unfold WeatherTool.getWeather.
  destruct (WeatherTool.validateInput input); [reflexivity|].
  cbv zeta. now destruct (WeatherTool.generateWeatherData _ _ _ _ _).
Qed.

End WeatherMore.

(** X14. The weather tool accepts an argument object exactly when its
    location is a string with something other than white space in it and
    its units are falsy (absent, null, false, zero, NaN, the empty
    string) or one of celsius and fahrenheit.  A call that is accepted
    draws twenty-five random numbers, a call that is refused none. *)
Theorem getWeather_accepts (rt : Runtime) (n : nat) (now_ : string) (o : Args) :
  is_Ok (WeatherTool.getWeather rt n now_ (Some o)).1
  = is_string (prop o "location")
    && negb (Nat.eqb (String.length (trim (str_of (prop o "location")))) 0)
    && (negb (truthy (prop o "units"))
        || includes ["celsius"; "fahrenheit"] (prop o "units"))
  /\ (WeatherTool.getWeather rt n now_ (Some o)).2
     = if is_Ok (WeatherTool.getWeather rt n now_ (Some o)).1 then n + 25 else n.
Proof.
  rewrite getWeather_result.
  destruct (WeatherTool.validateInput (Some o)) as [e|[]] eqn:Hv; cbv zeta; cbn [fst snd is_Ok].
  - split; [|reflexivity]. revert Hv. unfold WeatherTool.validateInput.
    destruct (prop o "location") as [| |b|x|s|]; try reflexivity.
    cbn [truthy is_string typeof str_of]. destruct s as [|c s]; [reflexivity|].
    cbn [String.eqb negb orb].
    change (is_string (JStr (String c s))) with true. cbn [negb orb andb].
    destruct (Nat.eqb _ 0); [reflexivity|].
    destruct (truthy (prop o "units")); cbn [negb andb orb]; [|discriminate].
    now destruct (includes _ (prop o "units")).
  - split; [|apply generateWeatherData_draws]. revert Hv. unfold WeatherTool.validateInput.
    destruct (prop o "location") as [| |b|x|s|]; try discriminate.
    + cbn. now destruct b.
    + cbn. now destruct (PrimFloat.eqb x 0 || PrimFloat.is_nan x).
    + cbn [truthy is_string typeof str_of]. destruct s as [|c s]; [discriminate|].
      cbn [String.eqb negb orb].
      change (is_string (JStr (String c s))) with true. cbn [negb orb andb].
      destruct (Nat.eqb _ 0); [discriminate|].
      destruct (truthy (prop o "units")); cbn [negb andb orb]; [|reflexivity].
      now destruct (includes _ (prop o "units")).
Qed.

(** X15. What an accepted weather call returns besides the forecast: the
    location as given, the reading of the clock as time stamp, and the
    units Fahrenheit exactly when the units given are the string
    fahrenheit; every falsy value of the units counts as celsius. *)
Theorem getWeather_output (rt : Runtime) (n n' : nat) (now_ : string) (o : Args)
    (out : WeatherTool.WeatherOutput) :
  WeatherTool.getWeather rt n now_ (Some o) = (Ok out, n') ->
  WeatherTool.location out = str_of (prop o "location")
  /\ WeatherTool.timestamp out = now_
  /\ WeatherTool.units out
     = (if strict_eq_str (prop o "units") "fahrenheit" then "Fahrenheit" else "Celsius")
  /\ map WeatherTool.day (WeatherTool.forecast out) = WeatherTool.days.
Proof.
  rewrite getWeather_result.
  destruct (WeatherTool.validateInput (Some o)) as [e|[]] eqn:Hv; [discriminate|].
  cbv zeta. change (default ∅ (Some o)) with o.
  match goal with |- context [WeatherTool.generateWeatherData rt n now_ ?l ?u] =>
    destruct (generateWeatherData_fields rt n now_ l u) as (Hl & Hu & Hd);
    destruct (generateWeatherData_draws rt n now_ l u) as (_ & Ht);
    set (g := WeatherTool.generateWeatherData rt n now_ l u) in *
  end.
  intros H. assert (out = g.1) as -> by congruence. clear H.
  cbv zeta in Hl, Hu, Hd. split; [exact Hl|]. split; [exact Ht|]. split; [|exact Hd].
  rewrite Hu. clear Hl Hu Hd Ht. revert Hv. unfold WeatherTool.validateInput.
  destruct (_ || _); [discriminate|]. destruct (Nat.eqb _ 0); [discriminate|].
  destruct (truthy (prop o "units")) eqn:Et; cbn [andb].
  - destruct (includes _ (prop o "units")) eqn:Ei; [|discriminate]. intros _.
    apply includes_true in Ei as (s & -> & Hs).
    rewrite !elem_of_cons, elem_of_nil in Hs. now destruct Hs as [-> | [-> | []]].
  - intros _. destruct (strict_eq_str (prop o "units") "fahrenheit") eqn:Ef; [|reflexivity].
    apply strict_eq_str_true in Ef. rewrite Ef in Et. discriminate.
Qed.

Lemma getWeather_output_witness :
  WeatherTool.location sample_weather_output = str_of (prop sample_weather_args "location")
  /\ WeatherTool.timestamp sample_weather_output = "2026-01-01T00:00:00.000Z"
  /\ WeatherTool.units sample_weather_output
     = (if strict_eq_str (prop sample_weather_args "units") "fahrenheit"
        then "Fahrenheit" else "Celsius")
  /\ map WeatherTool.day (WeatherTool.forecast sample_weather_output) = WeatherTool.days.
Proof.
  apply (getWeather_output sample_rt 0 25 "2026-01-01T00:00:00.000Z" sample_weather_args
           sample_weather_output).
  vm_compute. reflexivity.
Defined.

(** ** Requests that never reach a tool's work *)

(** X16. A file operation needs a path that is a string and not empty:
    with a known operation and any other path (absent, empty, a number,
    null) the call is refused with InvalidParams before any file is
    looked at; the world stays as it is. *)
Theorem file_path_required (rt : Runtime) (this : MCPServer.t) (w : World) (o : Args) :
  includes FileOpsTool.validOperations (prop o "operation") = true ->
  truthy (prop o "path") && is_string (prop o "path") = false ->
  callTool rt this w "file_operations" (Some o)
  = (w, Failure InvalidParams
          "MCP error -32602: File operations error: Path is required and must be a string").
Proof.
  intros Hop Hpath. rewrite callTool_file_operations.
  assert (Hv : FileOpsTool.validateInput (Some o)
               = Throw (Error "Path is required and must be a string")).
  { unfold FileOpsTool.validateInput. rewrite Hop.
    apply includes_true in Hop as (s & Eop & Hs). rewrite Eop.
    unfold FileOpsTool.validOperations in Hs. rewrite !elem_of_cons, elem_of_nil in Hs.
    assert (truthy (JStr s) = true) as ->
      by (destruct Hs as [-> | [-> | [-> | [-> | [-> | []]]]]]; reflexivity).
    cbn [negb]. apply andb_false_iff in Hpath as [-> | ->]; cbn; [reflexivity|].
    now destruct (truthy (prop o "path")). }
  unfold FileOpsTool.performOperation. rewrite Hv. cbn. now rewrite with_files_same.
Qed.

Lemma file_path_required_witness :
  callTool sample_rt sample_server sample_world "file_operations"
    (Some {[ "operation" := JStr "read"; "path" := JStr "" ]})
  = (sample_world,
     Failure InvalidParams
       "MCP error -32602: File operations error: Path is required and must be a string").
Proof.
  apply (file_path_required sample_rt sample_server sample_world
           {[ "operation" := JStr "read"; "path" := JStr "" ]}); reflexivity.
Defined.

(** X17. A call of a registered tool that carries no argument object is
    refused with InvalidParams; the message of the error response is the
    SDK's [MCP error -32602: ], the prefix of the tool and the message of
    the engine's TypeError; the files, the clock and the random numbers
    stay as they are. *)
Theorem callTool_without_arguments (rt : Runtime) (this : MCPServer.t) (w : World)
    (name_ : string) :
  registered name_ = true ->
  callTool rt this w name_ None
  = (w, Failure InvalidParams
          (error_prefix name_
           +:+ exn_message (TypeError_undefined
                              (if String.eqb name_ "weather" then "location"
                               else "operation")))).
Proof.
  unfold registered. intros H.
  apply orb_true_iff in H as [H|H]; [apply orb_true_iff in H as [H|H]|];
    apply String.eqb_eq in H as ->.
  - rewrite callTool_calculator. reflexivity.
  - rewrite callTool_weather. cbn. now destruct w.
  - rewrite callTool_file_operations. cbn. now rewrite with_files_same.
Qed.

Lemma callTool_without_arguments_witness :
  callTool sample_rt sample_server sample_world "weather" None
  = (sample_world,
     Failure InvalidParams
       (error_prefix "weather"
        +:+ exn_message (TypeError_undefined
                           (if String.eqb "weather" "weather" then "location"
                            else "operation")))).
Proof.
  apply (callTool_without_arguments sample_rt sample_server sample_world "weather").
  reflexivity.
Defined.
